(** * Code-Review check of the scorecard: a shallow embedding of
      [checks/code_review.go] and the properties of its heuristics.

    Layout:
    - [github]  : the slice of the go-github data types the check reads,
                  with their nil-safe getters;
    - [checker] : the Result model, the scoring rule and the [anyOf]
                  combinator of package [checker];
    - [checks]  : the four heuristics and [DoesCodeReview], translated
                  from [checks/code_review.go];
    - the theorems. *)

From Stdlib Require Import ZArith QArith Qround String Ascii List Bool Lia.
From Stdlib Require Import Permutation.
Import ListNotations.

Local Open Scope string_scope.
Local Open Scope Z_scope.

(** Go's [error] interface value: only the message matters here; a nil
    error is [None] at type [option error]. *)
Definition error : Type := string.

(** The (value, err) pair a client call returns: the value is read only
    when err is nil. *)
Inductive fetched (A : Type) : Type :=
| Ok (a : A)
| Err (e : error).
Arguments Ok {A} a.
Arguments Err {A} e.

(** [strings.Contains(s, substr)]: some suffix of [s] starts with
    [substr]. *)
Fixpoint Contains (s substr : string) : bool :=
  String.prefix substr s
  || match s with
     | EmptyString => false
     | String _ s' => Contains s' substr
     end.

(* ------------------------------------------------------------------ *)
(** ** go-github: the fields the check reads *)

Module github.

(** Pointer fields are [option]s; every [GetX] answers the zero value
    on a nil pointer, as the generated accessors of go-github do. *)
Record User := { Login : option string }.

Record Commit := { Message : option string }.

Record RepositoryCommit := {
  RC_Commit : option Commit;
  RC_Author : option User;
  RC_Committer : option User
}.

Record Label := { LabelName : option string }.

Record PullRequest := {
  Number : option Z;
  MergedAt : option Z;           (* *time.Time, as a timestamp *)
  MergeCommitSHA : option string;
  Labels : list Label
}.

Record PullRequestReview := { State : option string }.

Record PullRequestReviewsEnforcement := {
  RequiredApprovingReviewCount : Z
}.

Record Protection := {
  RequiredPullRequestReviews : option PullRequestReviewsEnforcement
}.

Record Repository := { DefaultBranch : option string }.

Definition GetLogin (u : option User) : string :=
  match u with
  | Some {| Login := Some l |} => l
  | _ => ""
  end.

Definition GetAuthor (c : RepositoryCommit) : option User := RC_Author c.
Definition GetCommitter (c : RepositoryCommit) : option User := RC_Committer c.
Definition GetCommit (c : RepositoryCommit) : option Commit := RC_Commit c.

Definition GetMessage (c : option Commit) : string :=
  match c with
  | Some {| Message := Some m |} => m
  | _ => ""
  end.

Definition GetName (l : Label) : string :=
  match LabelName l with Some n => n | None => "" end.

Definition GetNumber (p : PullRequest) : Z :=
  match Number p with Some n => n | None => 0 end.

Definition GetMergeCommitSHA (p : PullRequest) : string :=
  match MergeCommitSHA p with Some s => s | None => "" end.

Definition GetState (r : PullRequestReview) : string :=
  match State r with Some s => s | None => "" end.

Definition GetDefaultBranch (r : Repository) : string :=
  match DefaultBranch r with Some b => b | None => "" end.

Definition GetRequiredPullRequestReviews (p : Protection)
  : option PullRequestReviewsEnforcement :=
  RequiredPullRequestReviews p.

(** The evidence provider [c.Client]: the six operations the check
    calls, each a function of its arguments (owner, repo, ...). *)
Record Client := {
  PullRequests_List :
    string -> string -> string -> fetched (list PullRequest);
  PullRequests_ListReviews :
    string -> string -> Z -> fetched (list PullRequestReview);
  Repositories_GetCommit :
    string -> string -> string -> fetched RepositoryCommit;
  Repositories_Get :
    string -> string -> fetched Repository;
  Repositories_GetBranchProtection :
    string -> string -> string -> fetched Protection;
  Repositories_ListCommits :
    string -> string -> fetched (list RepositoryCommit)
}.

End github.

(* ------------------------------------------------------------------ *)
(** ** Package checker *)

Module checker.

(** Modelled from the spec: the error classification of §3; the type
    is declared in package checker. *)
Inductive ErrorClass : Type :=
| ClassNone
| ClassRetryable
| ClassInconclusive.

(** Modelled from the spec: equality of two classifications of §3,
    decided. *)
Definition ErrorClass_eqb (a b : ErrorClass) : bool :=
  match a, b with
  | ClassNone, ClassNone
  | ClassRetryable, ClassRetryable
  | ClassInconclusive, ClassInconclusive => true
  | _, _ => false
  end.

(** Modelled from the spec: the Result of §3 (check name, verdict,
    bounded integer confidence, error classification with its cause);
    the struct [CheckResult] is declared in package checker. The
    fields [Name], [Pass] and [Confidence] are the ones the struct
    literal of [IsPrReviewRequired] sets. *)
Record CheckResult := {
  Name : string;
  Pass : bool;
  Confidence : Z;
  Class : ErrorClass;
  Cause : option error
}.

(** Modelled from the spec: the floor of the bounded confidence range
    0-10 of §3; the constant is declared in package checker. *)
Definition MinResultConfidence : Z := 0.

(** Modelled from the spec: the maximal value of the bounded confidence
    range 0-10 of §3; the constant is declared in package checker. *)
Definition MaxResultConfidence : Z := 10.

(** Modelled from the spec: the Request of §3, a struct of package
    checker, with the fields the check reads ([c.Client], [c.Owner],
    [c.Repo]). The context and the logging sink are left out: the log
    is written for observability only and no Result depends on it. *)
Record CheckRequest := {
  Client : github.Client;
  Owner : string;
  Repo : string
}.

(** Modelled from the spec: a check, a function from the Request to
    one Result (§4.5); the type is declared in package checker. *)
Definition CheckFn : Type := CheckRequest -> CheckResult.

(** Modelled from the spec: [retryResult(name, cause)] of §4.1, a
    function of package checker: tagged retryable-transient, asserts
    neither pass nor a confidence above the floor. *)
Definition MakeRetryResult (name : string) (err : option error)
  : CheckResult :=
  {| Name := name; Pass := false; Confidence := MinResultConfidence;
     Class := ClassRetryable; Cause := err |}.

(** Modelled from the spec: [inconclusiveResult(name, cause)] of §4.1,
    a function of package checker: tagged inconclusive. *)
Definition MakeInconclusiveResult (name : string) (err : option error)
  : CheckResult :=
  {| Name := name; Pass := false; Confidence := MinResultConfidence;
     Class := ClassInconclusive; Cause := err |}.

(** Modelled from the spec: the confidence of an observed ratio (§4.2).
    The spec leaves the curve open as long as it is monotonic,
    deterministic and bounded, sends a zero ratio to the floor and a
    passing ratio to no less than a fixed pass floor; the model takes
    the linear map [floor (ratio * max)], cut to the range. *)
Definition confidenceOfRatio (ratio : Q) : Z :=
  Z.max MinResultConfidence
        (Z.min MaxResultConfidence
               (Qfloor (ratio * inject_Z MaxResultConfidence))).

(** Modelled from the spec: the scoring rule [proportionalResult] of
    §4.2, a function of package checker: [ratio = numerator /
    denominator], pass iff [ratio >= threshold]. The rule assumes a
    positive denominator; §4.2 calls a zero denominator undefined
    evidence, and the model, which has to be total, answers it with
    an inconclusive Result without a cause. *)
Definition MakeProportionalResult
  (name : string) (numerator denominator : Z) (threshold : Q)
  : CheckResult :=
  if denominator =? 0 then MakeInconclusiveResult name None
  else
    let ratio := (inject_Z numerator / inject_Z denominator)%Q in
    {| Name := name;
       Pass := Qle_bool threshold ratio;
       Confidence := confidenceOfRatio ratio;
       Class := ClassNone;
       Cause := None |}.

(** Modelled from the spec: a definitive pass (§7) is a passing
    verdict without an error classification. *)
Definition isDefinitivePass (r : CheckResult) : bool :=
  Pass r && ErrorClass_eqb (Class r) ClassNone.

(** Modelled from the spec: a Result tagged retryable-transient. *)
Definition isRetryable (r : CheckResult) : bool :=
  ErrorClass_eqb (Class r) ClassRetryable.

(** Modelled from the spec: a Result tagged inconclusive. *)
Definition isInconclusive (r : CheckResult) : bool :=
  ErrorClass_eqb (Class r) ClassInconclusive.

(** Modelled from the spec: a Result kept verbatim, its name rewritten
    (§4.4, rule 1). *)
Definition withName (name : string) (r : CheckResult) : CheckResult :=
  {| Name := name; Pass := Pass r; Confidence := Confidence r;
     Class := Class r; Cause := Cause r |}.

(** Modelled from the spec: the children [anyOf] runs (§4.4), in the
    given order against the same request, stopping after the first
    definitive pass. The list holds the Result of every child that
    was evaluated. *)
Fixpoint observed (fns : list CheckFn) (c : CheckRequest)
  : list CheckResult :=
  match fns with
  | [] => []
  | fn :: rest =>
      let result := fn c in
      if isDefinitivePass result then [result]
      else result :: observed rest c
  end.

(** Modelled from the spec: the folding rule of §4.4 over the observed
    Results: (1) the first definitive pass, renamed to the combinator;
    (2) else the first retryable Result; (3) else the last
    inconclusive one. With no child at all the Result is inconclusive
    (§8). The rule names no Result when every child fails
    definitively; §7 reads the absence of a pass as a fail at the
    combinator boundary, and the model hands back the last observed
    Result there. *)
Definition foldResults (name : string) (rs : list CheckResult)
  : CheckResult :=
  match find isDefinitivePass rs with
  | Some r => withName name r
  | None =>
      match find isRetryable rs with
      | Some r => r
      | None =>
          match find isInconclusive (rev rs) with
          | Some r => r
          | None => last rs (MakeInconclusiveResult name None)
          end
      end
  end.

(** Modelled from the spec: [anyOf(checks...)] of §4.4, the
    combinator [MultiCheckOr] of package checker. [name] is the
    combinator's own name. *)
Definition MultiCheckOr (name : string) (fns : list CheckFn) : CheckFn :=
  fun c => foldResults name (observed fns c).

End checker.

(* ------------------------------------------------------------------ *)
(** ** Package checks: [code_review.go] *)

Module checks.
Import github checker.

(** [CheckCodeReview] is the registered name for [DoesCodeReview]. *)
Definition CheckCodeReview : string := "Code-Review".

(** [ErrorNoReviews] indicates no reviews were found for this repo. *)
Definition ErrorNoReviews : error := "no reviews found".

(** The threshold literal [.75] every heuristic passes on. *)
Definition threshold : Q := 3 # 4.

(** Every [return] of a heuristic is either a call into package
    checker or the struct literal of [IsPrReviewRequired]. The
    heuristics are translated in two layers: [X_call] is the control
    flow of [X] up to that last call, with its arguments; [perform]
    runs the call. So what a heuristic hands to the scoring rule can
    be stated apart from what the scoring rule makes of it. *)
Inductive Returned : Type :=
| CallMakeRetryResult (name : string) (err : option error)
| CallMakeInconclusiveResult (name : string) (err : option error)
| CallMakeProportionalResult
    (name : string) (numerator denominator : Z) (threshold : Q)
| Literal (r : CheckResult).

Definition perform (r : Returned) : CheckResult :=
  match r with
  | CallMakeRetryResult name err => MakeRetryResult name err
  | CallMakeInconclusiveResult name err => MakeInconclusiveResult name err
  | CallMakeProportionalResult name n d t =>
      MakeProportionalResult name n d t
  | Literal r => r
  end.

(** The counters of the sampling loops are Go [int]s that only count
    elements of a slice, whose length is itself an [int]: they cannot
    wrap, and are integers here. A loop state is
    [(total, totalReviewed)]. *)
Definition Counters : Type := (Z * Z)%type.

(** *** GithubCodeReview *)

(** [for _, r := range reviews]: stops at the first review whose
    state is APPROVED and answers [foundApprovedReview]. *)
Fixpoint foundApprovedReview (reviews : list PullRequestReview) : bool :=
  match reviews with
  | [] => false
  | r :: rest =>
      if (GetState r =? "APPROVED")%string then true
      else foundApprovedReview rest
  end.

(** The fallback on the merge commit: both logins known and
    different. *)
Definition committerDiffers (commit : RepositoryCommit) : bool :=
  let commitAuthor := GetLogin (GetAuthor commit) in
  let commitCommitter := GetLogin (GetCommitter commit) in
  (negb (commitAuthor =? "") && negb (commitCommitter =? "")
   && negb (commitAuthor =? commitCommitter))%string.

(** One turn of [for _, pr := range prs]. *)
Definition GithubCodeReview_body (c : CheckRequest)
  (st : Counters) (pr : PullRequest) : Counters :=
  let '(totalMerged, totalReviewed) := st in
  match MergedAt pr with
  | None => (totalMerged, totalReviewed)                   (* continue *)
  | Some _ =>
      let totalMerged := totalMerged + 1 in
      match PullRequests_ListReviews (Client c) (Owner c) (Repo c)
              (GetNumber pr) with
      | Err _ => (totalMerged, totalReviewed)              (* continue *)
      | Ok reviews =>
          if foundApprovedReview reviews
          then (totalMerged, totalReviewed + 1)
          else
            match Repositories_GetCommit (Client c) (Owner c) (Repo c)
                    (GetMergeCommitSHA pr) with
            | Ok commit =>
                if committerDiffers commit
                then (totalMerged, totalReviewed + 1)
                else (totalMerged, totalReviewed)
            | Err _ => (totalMerged, totalReviewed)
            end
      end
  end.

Definition GithubCodeReview_loop (c : CheckRequest)
  (prs : list PullRequest) : Counters :=
  fold_left (GithubCodeReview_body c) prs (0, 0).

Definition GithubCodeReview_call (c : CheckRequest) : Returned :=
  match PullRequests_List (Client c) (Owner c) (Repo c) "closed" with
  | Err err => CallMakeInconclusiveResult CheckCodeReview (Some err)
  | Ok prs =>
      let '(totalMerged, totalReviewed) := GithubCodeReview_loop c prs in
      CallMakeProportionalResult CheckCodeReview
        totalReviewed totalMerged threshold
  end.

Definition GithubCodeReview : CheckFn :=
  fun c => perform (GithubCodeReview_call c).

(** *** IsPrReviewRequired *)

Definition IsPrReviewRequired_call (c : CheckRequest) : Returned :=
  match Repositories_Get (Client c) (Owner c) (Repo c) with
  | Err err => CallMakeRetryResult CheckCodeReview (Some err)
  | Ok r =>
      match Repositories_GetBranchProtection (Client c) (Owner c) (Repo c)
              (GetDefaultBranch r) with
      | Err err => CallMakeInconclusiveResult CheckCodeReview (Some err)
      | Ok bp =>
          match GetRequiredPullRequestReviews bp with
          | Some reviews =>
              if RequiredApprovingReviewCount reviews >=? 1 then
                let confidence := 5 in
                Literal {| Name := CheckCodeReview;
                           Pass := true;
                           Confidence := confidence;
                           Class := ClassNone;
                           Cause := None |}
              else CallMakeInconclusiveResult CheckCodeReview None
          | None => CallMakeInconclusiveResult CheckCodeReview None
          end
      end
  end.

Definition IsPrReviewRequired : CheckFn :=
  fun c => perform (IsPrReviewRequired_call c).

(** *** ProwCodeReview *)

(** [for _, l := range pr.Labels]: stops at the first label named
    lgtm or approved. *)
Fixpoint hasReviewLabel (labels : list Label) : bool :=
  match labels with
  | [] => false
  | l :: rest =>
      if ((GetName l =? "lgtm") || (GetName l =? "approved"))%string then true
      else hasReviewLabel rest
  end.

Definition ProwCodeReview_body (st : Counters) (pr : PullRequest)
  : Counters :=
  let '(totalMerged, totalReviewed) := st in
  match MergedAt pr with
  | None => (totalMerged, totalReviewed)                   (* continue *)
  | Some _ =>
      let totalMerged := totalMerged + 1 in
      if hasReviewLabel (Labels pr)
      then (totalMerged, totalReviewed + 1)
      else (totalMerged, totalReviewed)
  end.

Definition ProwCodeReview_loop (prs : list PullRequest) : Counters :=
  fold_left ProwCodeReview_body prs (0, 0).

Definition ProwCodeReview_call (c : CheckRequest) : Returned :=
  match PullRequests_List (Client c) (Owner c) (Repo c) "closed" with
  | Err err => CallMakeInconclusiveResult CheckCodeReview (Some err)
  | Ok prs =>
      let '(totalMerged, totalReviewed) := ProwCodeReview_loop prs in
      if totalReviewed =? 0
      then CallMakeInconclusiveResult CheckCodeReview (Some ErrorNoReviews)
      else CallMakeProportionalResult CheckCodeReview
             totalReviewed totalMerged threshold
  end.

Definition ProwCodeReview : CheckFn :=
  fun c => perform (ProwCodeReview_call c).

(** *** CommitMessageHints *)

(** [for _, substring := range []string{"bot", "gardener"}]. *)
Fixpoint containsAny (s : string) (substrings : list string) : bool :=
  match substrings with
  | [] => false
  | substring :: rest =>
      if Contains s substring then true else containsAny s rest
  end.

Definition isBot (commit : RepositoryCommit) : bool :=
  let committer := GetLogin (GetCommitter commit) in
  containsAny committer ["bot"; "gardener"].

(** The new line of the Go literals ["\nReviewed-on: "] and
    ["\nReviewed-by: "]. *)
Definition nl : string := String (ascii_of_nat 10) EmptyString.

Definition hasGerritTrailers (commit : RepositoryCommit) : bool :=
  let commitMessage := GetMessage (GetCommit commit) in
  Contains commitMessage (nl ++ "Reviewed-on: ")
  && Contains commitMessage (nl ++ "Reviewed-by: ").

Definition CommitMessageHints_body (st : Counters)
  (commit : RepositoryCommit) : Counters :=
  let '(total, totalReviewed) := st in
  if isBot commit then (total, totalReviewed)              (* continue *)
  else
    let total := total + 1 in
    if hasGerritTrailers commit
    then (total, totalReviewed + 1)
    else (total, totalReviewed).

Definition CommitMessageHints_loop (commits : list RepositoryCommit)
  : Counters :=
  fold_left CommitMessageHints_body commits (0, 0).

Definition CommitMessageHints_call (c : CheckRequest) : Returned :=
  match Repositories_ListCommits (Client c) (Owner c) (Repo c) with
  | Err err => CallMakeRetryResult CheckCodeReview (Some err)
  | Ok commits =>
      let '(total, totalReviewed) := CommitMessageHints_loop commits in
      if totalReviewed =? 0
      then CallMakeInconclusiveResult CheckCodeReview (Some ErrorNoReviews)
      else CallMakeProportionalResult CheckCodeReview
             totalReviewed total threshold
  end.

Definition CommitMessageHints : CheckFn :=
  fun c => perform (CommitMessageHints_call c).

(** *** DoesCodeReview *)

Definition DoesCodeReview : CheckFn :=
  MultiCheckOr CheckCodeReview
    [IsPrReviewRequired; GithubCodeReview; ProwCodeReview;
     CommitMessageHints].

End checks.

(* ------------------------------------------------------------------ *)
(** ** The populations and counts the heuristics sample *)

Module population.
Import github checker checks.

(** A loop body that counts: an eligible item adds one to the total,
    and one to the reviewed count when it is positive. *)
Definition countingBody {A : Type} (eligible positive : A -> bool)
  (st : Counters) (x : A) : Counters :=
  let '(total, reviewed) := st in
  if eligible x
  then (total + 1, if positive x then reviewed + 1 else reviewed)
  else (total, reviewed).

Definition size {A : Type} (l : list A) : Z := Z.of_nat (length l).

(** Pull requests that were actually merged. *)
Definition isMerged (pr : PullRequest) : bool :=
  match MergedAt pr with Some _ => true | None => false end.

Definition mergedPullRequests (prs : list PullRequest) : list PullRequest :=
  filter isMerged prs.

(** The positive observation of [GithubCodeReview] on one merged pull
    request: an approved review, or else a merge commit whose
    committer differs from its author. A failed fetch of the reviews
    leaves the pull request unreviewed. *)
Definition githubReviewed (c : CheckRequest) (pr : PullRequest) : bool :=
  match PullRequests_ListReviews (Client c) (Owner c) (Repo c)
          (GetNumber pr) with
  | Err _ => false
  | Ok reviews =>
      foundApprovedReview reviews
      || match Repositories_GetCommit (Client c) (Owner c) (Repo c)
                 (GetMergeCommitSHA pr) with
         | Ok commit => committerDiffers commit
         | Err _ => false
         end
  end.

(** The positive observation of [ProwCodeReview]. *)
Definition prowReviewed (pr : PullRequest) : bool :=
  hasReviewLabel (Labels pr).

(** Commits that are not skipped as coming from a bot account. *)
Definition humanCommits (commits : list RepositoryCommit)
  : list RepositoryCommit :=
  filter (fun commit => negb (isBot commit)) commits.

(** The bot test as the spec words it: on the commit author. *)
Definition isBotAuthor (commit : RepositoryCommit) : bool :=
  containsAny (GetLogin (GetAuthor commit)) ["bot"; "gardener"].

(** The Results of all the children of a combinator on one request,
    in declaration order. *)
Definition resultsOf (fns : list CheckFn) (c : CheckRequest)
  : list CheckResult :=
  map (fun fn : CheckFn => fn c) fns.

(** What a heuristic handed to the scoring rule keeps the numerator
    between zero and the denominator. *)
Definition numeratorWithinDenominator (r : Returned) : Prop :=
  match r with
  | CallMakeProportionalResult _ numerator denominator _ =>
      0 <= numerator <= denominator
  | _ => True
  end.

(** The observed ratio of a call to the scoring rule is at most 1. *)
Definition ratioAtMostOne (r : Returned) : Prop :=
  match r with
  | CallMakeProportionalResult _ numerator denominator _ =>
      0 < denominator ->
      (inject_Z numerator / inject_Z denominator <= 1)%Q
  | _ => True
  end.

End population.

(* ------------------------------------------------------------------ *)
(** ** Sample evidence *)

Module samples.
Import github checker checks.

Definition transportError : error := "connection reset by peer".
Definition forbidden : error := "403 Forbidden".

(** A provider whose every operation fails. *)
Definition unreachable : github.Client :=
  {| PullRequests_List := fun _ _ _ => Err transportError;
     PullRequests_ListReviews := fun _ _ _ => Err transportError;
     Repositories_GetCommit := fun _ _ _ => Err transportError;
     Repositories_Get := fun _ _ => Err transportError;
     Repositories_GetBranchProtection := fun _ _ _ => Err transportError;
     Repositories_ListCommits := fun _ _ => Err transportError |}.

Definition request (cl : github.Client) : CheckRequest :=
  {| Client := cl; Owner := "ossf"; Repo := "scorecard" |}.

Definition user (login : string) : option User :=
  Some {| Login := Some login |}.

Definition mergedPr (n : Z) (labels : list string) : PullRequest :=
  {| Number := Some n; MergedAt := Some 1600000000;
     MergeCommitSHA := Some "deadbeef";
     Labels := map (fun l => {| LabelName := Some l |}) labels |}.

Definition closedUnmergedPr (n : Z) : PullRequest :=
  {| Number := Some n; MergedAt := None; MergeCommitSHA := None;
     Labels := [] |}.

Definition approved : PullRequestReview := {| State := Some "APPROVED" |}.
Definition commented : PullRequestReview := {| State := Some "COMMENTED" |}.

Definition commitBy (author committer : string) (message : string)
  : RepositoryCommit :=
  {| RC_Commit := Some {| Message := Some message |};
     RC_Author := user author;
     RC_Committer := user committer |}.

Definition gerritMessage : string :=
  "Fix the parser" ++ nl ++ nl ++ "Reviewed-on: https://review/1"
  ++ nl ++ "Reviewed-by: Alice".

(** The pull-request listing works, the reviews of every pull request
    cannot be fetched. *)
Definition reviewsUnreachable : github.Client :=
  {| PullRequests_List := fun _ _ _ => Ok [mergedPr 7 []];
     PullRequests_ListReviews := fun _ _ _ => Err transportError;
     Repositories_GetCommit := fun _ _ _ => Err transportError;
     Repositories_Get := fun _ _ => Err transportError;
     Repositories_GetBranchProtection := fun _ _ _ => Err transportError;
     Repositories_ListCommits := fun _ _ => Err transportError |}.

(** Closed pull requests, none of them merged. *)
Definition nothingMerged : github.Client :=
  {| PullRequests_List :=
       fun _ _ _ => Ok [closedUnmergedPr 1; closedUnmergedPr 2];
     PullRequests_ListReviews := fun _ _ _ => Ok [];
     Repositories_GetCommit := fun _ _ _ => Err transportError;
     Repositories_Get := fun _ _ => Err transportError;
     Repositories_GetBranchProtection := fun _ _ _ => Err transportError;
     Repositories_ListCommits := fun _ _ => Ok [] |}.

(** The default branch asks for one approving review. *)
Definition protectedBranch : github.Client :=
  {| PullRequests_List := fun _ _ _ => Err transportError;
     PullRequests_ListReviews := fun _ _ _ => Err transportError;
     Repositories_GetCommit := fun _ _ _ => Err transportError;
     Repositories_Get :=
       fun _ _ => Ok {| DefaultBranch := Some "main" |};
     Repositories_GetBranchProtection :=
       fun _ _ _ =>
         Ok {| RequiredPullRequestReviews :=
                 Some {| RequiredApprovingReviewCount := 1 |} |};
     Repositories_ListCommits := fun _ _ => Err transportError |}.

(** The protection of the default branch is readable and asks for no
    approving review; the repository names no default branch. *)
Definition unprotectedBranch : github.Client :=
  {| PullRequests_List := fun _ _ _ => Err transportError;
     PullRequests_ListReviews := fun _ _ _ => Err transportError;
     Repositories_GetCommit := fun _ _ _ => Err transportError;
     Repositories_Get := fun _ _ => Ok {| DefaultBranch := None |};
     Repositories_GetBranchProtection :=
       fun _ _ _ =>
         Ok {| RequiredPullRequestReviews :=
                 Some {| RequiredApprovingReviewCount := 0 |} |};
     Repositories_ListCommits := fun _ _ => Err transportError |}.

(** The repository is readable, its branch protection is not. *)
Definition protectionUnreadable : github.Client :=
  {| PullRequests_List := fun _ _ _ => Err transportError;
     PullRequests_ListReviews := fun _ _ _ => Err transportError;
     Repositories_GetCommit := fun _ _ _ => Err transportError;
     Repositories_Get :=
       fun _ _ => Ok {| DefaultBranch := Some "main" |};
     Repositories_GetBranchProtection := fun _ _ _ => Err forbidden;
     Repositories_ListCommits := fun _ _ => Err transportError |}.

(** Merged pull requests without a review label; commits without a
    review trailer. *)
Definition unreviewed : github.Client :=
  {| PullRequests_List :=
       fun _ _ _ => Ok [mergedPr 1 []; mergedPr 2 ["bug"]];
     PullRequests_ListReviews := fun _ _ _ => Ok [commented];
     Repositories_GetCommit :=
       fun _ _ _ => Ok (commitBy "alice" "alice" "Fix");
     Repositories_Get := fun _ _ => Err transportError;
     Repositories_GetBranchProtection := fun _ _ _ => Err transportError;
     Repositories_ListCommits :=
       fun _ _ => Ok [commitBy "alice" "alice" "Fix the parser"] |}.

(** Three merged pull requests: two carry a review label, one carries
    an approved review and a merge commit by somebody else. *)
Definition reviewed : github.Client :=
  {| PullRequests_List :=
       fun _ _ _ =>
         Ok [mergedPr 1 ["lgtm"; "approved"]; closedUnmergedPr 2;
             mergedPr 3 []; mergedPr 4 ["approved"]];
     PullRequests_ListReviews :=
       fun _ _ n => if n =? 3 then Ok [commented; approved; approved]
                    else Ok [];
     Repositories_GetCommit :=
       fun _ _ _ => Ok (commitBy "alice" "bob" "Merge");
     Repositories_Get := fun _ _ => Err transportError;
     Repositories_GetBranchProtection := fun _ _ _ => Err transportError;
     Repositories_ListCommits :=
       fun _ _ =>
         Ok [commitBy "alice" "alice" gerritMessage;
             commitBy "k8s-ci-robot" "k8s-ci-robot" gerritMessage;
             commitBy "carol" "carol" "Typo"] |}.

(** The reviews of pull request 3 hold an approval; no merge commit can
    be fetched. *)
Definition approvedOnly : github.Client :=
  {| PullRequests_List := fun _ _ _ => Ok [mergedPr 3 []];
     PullRequests_ListReviews :=
       fun _ _ n => if n =? 3 then Ok [commented; approved; approved]
                    else Ok [];
     Repositories_GetCommit := fun _ _ _ => Err transportError;
     Repositories_Get := fun _ _ => Err transportError;
     Repositories_GetBranchProtection := fun _ _ _ => Err transportError;
     Repositories_ListCommits := fun _ _ => Err transportError |}.

(** A commit written by a bot account and committed by the web flow
    of the hosting service. *)
Definition botAuthored : RepositoryCommit :=
  commitBy "dependabot[bot]" "web-flow" gerritMessage.

Definition botCommitted : RepositoryCommit :=
  commitBy "alice" "istio-testing-gardener" gerritMessage.

(** Children for the combinator. *)
Definition passes (confidence : Z) : CheckFn :=
  fun _ => {| Name := "child"; Pass := true; Confidence := confidence;
              Class := ClassNone; Cause := None |}.
Definition retries (e : error) : CheckFn :=
  fun _ => MakeRetryResult "child" (Some e).
Definition inconclusive (e : error) : CheckFn :=
  fun _ => MakeInconclusiveResult "child" (Some e).

End samples.

(* ------------------------------------------------------------------ *)
(** ** The scoring rule *)

Module scoring.
Import checker checks.

Lemma ratio_le (n n' d : Z) :
  0 < d -> n <= n' ->
  (inject_Z n / inject_Z d <= inject_Z n' / inject_Z d)%Q.
Proof.
  intros Hd Hn. unfold Qdiv.
  apply Qmult_le_compat_r.
  - rewrite <- Zle_Qle. exact Hn.
  - apply Qlt_le_weak, Qinv_lt_0_compat.
    change 0%Q with (inject_Z 0). rewrite <- Zlt_Qlt. exact Hd.
Qed.

Lemma confidenceOfRatio_bounded (q : Q) :
  MinResultConfidence <= confidenceOfRatio q <= MaxResultConfidence.
Proof.
  unfold confidenceOfRatio, MinResultConfidence, MaxResultConfidence. lia.
Qed.

Lemma confidenceOfRatio_le (q q' : Q) :
  (q <= q')%Q -> confidenceOfRatio q <= confidenceOfRatio q'.
Proof.
  intros Hq. unfold confidenceOfRatio.
  assert (H : Qfloor (q * inject_Z MaxResultConfidence)
              <= Qfloor (q' * inject_Z MaxResultConfidence)).
  { apply Qfloor_resp_le, Qmult_le_compat_r; [exact Hq | discriminate]. }
  lia.
Qed.

(** The comparison of the ratio with the threshold, on integers. *)
Lemma threshold_le_ratio (n d : Z) (t : Q) :
  0 < d ->
  (t <= inject_Z n / inject_Z d)%Q <-> Qnum t * d <= n * Zpos (Qden t).
Proof.
  intros Hd.
  assert (HdQ : (0 < inject_Z d)%Q).
  { change 0%Q with (inject_Z 0). rewrite <- Zlt_Qlt. exact Hd. }
  rewrite <- (Qmult_le_r _ _ (inject_Z d) HdQ).
  assert (E : (inject_Z n / inject_Z d * inject_Z d == inject_Z n)%Q).
  { field. intros H. rewrite H in HdQ. discriminate. }
  rewrite E. unfold Qle, Qmult, inject_Z. simpl. lia.
Qed.

Lemma proportional_unfold (name : string) (n d : Z) (t : Q) :
  0 < d ->
  MakeProportionalResult name n d t =
  {| Name := name;
     Pass := Qle_bool t (inject_Z n / inject_Z d);
     Confidence := confidenceOfRatio (inject_Z n / inject_Z d);
     Class := ClassNone;
     Cause := None |}.
Proof.
  intros Hd. unfold MakeProportionalResult.
  destruct (Z.eqb_spec d 0); [lia | reflexivity].
Qed.

End scoring.

(* ------------------------------------------------------------------ *)
(** ** Lists: searching and counting *)

Section ListFacts.
Context {A : Type}.
Variable p : A -> bool.

Lemma find_all_false (l : list A) :
  (forall x, In x l -> p x = false) -> find p l = None.
Proof.
  induction l as [|a l IH]; intros H; simpl; [reflexivity|].
  rewrite (H a (or_introl eq_refl)).
  apply IH. intros x Hx. apply H. right. exact Hx.
Qed.

Lemma find_first (l1 l2 : list A) (x : A) :
  (forall y, In y l1 -> p y = false) -> p x = true ->
  find p (l1 ++ x :: l2)%list = Some x.
Proof.
  induction l1 as [|a l1 IH]; intros H Hx; simpl.
  - rewrite Hx. reflexivity.
  - rewrite (H a (or_introl eq_refl)).
    apply IH; [|exact Hx]. intros y Hy. apply H. right. exact Hy.
Qed.

Lemma filter_length_le (l : list A) :
  (length (filter p l) <= length l)%nat.
Proof.
  induction l as [|a l IH]; simpl; [lia|].
  destruct (p a); simpl; lia.
Qed.

End ListFacts.

Module counting.
Import github checker checks population.

Lemma size_cons {A : Type} (x : A) (l : list A) : size (x :: l) = size l + 1.
Proof. unfold size. simpl length. lia. Qed.

Lemma size_nonneg {A : Type} (l : list A) : 0 <= size l.
Proof. unfold size. lia. Qed.

Lemma size_filter_le {A : Type} (p : A -> bool) (l : list A) :
  size (filter p l) <= size l.
Proof. unfold size. pose proof (filter_length_le p l). lia. Qed.

(** A counting loop ends with the size of the eligible population and
    the number of its positive members added to its counters. *)
Lemma fold_countingBody {A : Type} (eligible positive : A -> bool)
  (l : list A) (total reviewed : Z) :
  fold_left (countingBody eligible positive) l (total, reviewed) =
  (total + size (filter eligible l),
   reviewed + size (filter positive (filter eligible l))).
Proof.
  revert total reviewed.
  induction l as [|x l IH]; intros total reviewed; simpl.
  - unfold size. simpl. f_equal; lia.
  - destruct (eligible x) eqn:He; simpl.
    + destruct (positive x) eqn:Hp; rewrite IH, ?size_cons;
        f_equal; lia.
    + apply IH.
Qed.

Lemma fold_left_ext {A B : Type} (f g : A -> B -> A) (l : list B) (a : A) :
  (forall a b, f a b = g a b) -> fold_left f l a = fold_left g l a.
Proof.
  intros H. revert a. induction l as [|b l IH]; intros a; simpl.
  - reflexivity.
  - rewrite H. apply IH.
Qed.

Lemma GithubCodeReview_body_counts (c : CheckRequest) st pr :
  GithubCodeReview_body c st pr =
  countingBody isMerged (githubReviewed c) st pr.
Proof.
  destruct st as [m r].
  unfold GithubCodeReview_body, countingBody, isMerged, githubReviewed.
  destruct (MergedAt pr); [|reflexivity].
  destruct (PullRequests_ListReviews _ _ _ _) as [reviews|e];
    [|reflexivity].
  destruct (foundApprovedReview reviews); simpl; [reflexivity|].
  destruct (Repositories_GetCommit _ _ _ _) as [commit|e];
    [|reflexivity].
  destruct (committerDiffers commit); reflexivity.
Qed.

Lemma ProwCodeReview_body_counts st pr :
  ProwCodeReview_body st pr = countingBody isMerged prowReviewed st pr.
Proof.
  destruct st as [m r].
  unfold ProwCodeReview_body, countingBody, isMerged, prowReviewed.
  destruct (MergedAt pr); [|reflexivity].
  destruct (hasReviewLabel (Labels pr)); reflexivity.
Qed.

Lemma CommitMessageHints_body_counts st commit :
  CommitMessageHints_body st commit =
  countingBody (fun x => negb (isBot x)) hasGerritTrailers st commit.
Proof.
  destruct st as [t r].
  unfold CommitMessageHints_body, countingBody.
  destruct (isBot commit); simpl; [reflexivity|].
  destruct (hasGerritTrailers commit); reflexivity.
Qed.

Lemma GithubCodeReview_loop_counts (c : CheckRequest) prs :
  GithubCodeReview_loop c prs =
  (size (mergedPullRequests prs),
   size (filter (githubReviewed c) (mergedPullRequests prs))).
Proof.
  unfold GithubCodeReview_loop, mergedPullRequests.
  rewrite (fold_left_ext _ _ _ _ (GithubCodeReview_body_counts c)).
  rewrite fold_countingBody. reflexivity.
Qed.

Lemma ProwCodeReview_loop_counts prs :
  ProwCodeReview_loop prs =
  (size (mergedPullRequests prs),
   size (filter prowReviewed (mergedPullRequests prs))).
Proof.
  unfold ProwCodeReview_loop, mergedPullRequests.
  rewrite (fold_left_ext _ _ _ _ ProwCodeReview_body_counts).
  rewrite fold_countingBody. reflexivity.
Qed.

Lemma CommitMessageHints_loop_counts commits :
  CommitMessageHints_loop commits =
  (size (humanCommits commits),
   size (filter hasGerritTrailers (humanCommits commits))).
Proof.
  unfold CommitMessageHints_loop, humanCommits.
  rewrite (fold_left_ext _ _ _ _ CommitMessageHints_body_counts).
  rewrite fold_countingBody. reflexivity.
Qed.

End counting.

Module combinator.
Import checker population.

Lemma observed_no_pass (fns : list CheckFn) (c : CheckRequest) :
  (forall fn, In fn fns -> isDefinitivePass (fn c) = false) ->
  observed fns c = resultsOf fns c.
Proof.
  induction fns as [|fn fns IH]; intros H; simpl; [reflexivity|].
  rewrite (H fn (or_introl eq_refl)). f_equal.
  apply IH. intros g Hg. apply H. right. exact Hg.
Qed.

Lemma observed_first_pass (pre post : list CheckFn) (A : CheckFn)
  (c : CheckRequest) :
  (forall fn, In fn pre -> isDefinitivePass (fn c) = false) ->
  isDefinitivePass (A c) = true ->
  observed (pre ++ A :: post)%list c = (resultsOf pre c ++ [A c])%list.
Proof.
  induction pre as [|fn pre IH]; intros H HA; simpl.
  - rewrite HA. reflexivity.
  - rewrite (H fn (or_introl eq_refl)). f_equal.
    apply IH; [|exact HA]. intros g Hg. apply H. right. exact Hg.
Qed.

Lemma resultsOf_all (q : CheckResult -> bool) (fns : list CheckFn)
  (c : CheckRequest) :
  (forall fn, In fn fns -> q (fn c) = false) ->
  forall r, In r (resultsOf fns c) -> q r = false.
Proof.
  intros H r Hr. unfold resultsOf in Hr.
  apply in_map_iff in Hr. destruct Hr as [fn [<- Hfn]].
  apply H. exact Hfn.
Qed.

End combinator.

(* ------------------------------------------------------------------ *)
(** ** Properties of the check *)

Import github checker checks population samples.
Import scoring counting combinator.

(** C7. For a positive denominator and a threshold in (0,1] the scoring
    rule gives a definitive verdict that passes exactly when
    numerator/denominator is at least the threshold (on integers: when
    [Qnum t * denominator <= numerator * Qden t]); its confidence lies
    in the bounded range, is a function of the ratio alone, and does not
    decrease when the numerator grows for a fixed denominator; 8 of 10
    passes at 0.75 and 3 of 5 fails. *)
Theorem MakeProportionalResult_rule
  (name : string) (numerator denominator : Z) (t : Q) :
  0 < denominator -> (0 < t)%Q -> (t <= 1)%Q ->
  let result := MakeProportionalResult name numerator denominator t in
  (Pass result = true <->
   (t <= inject_Z numerator / inject_Z denominator)%Q)
  /\ (Pass result = true <->
      Qnum t * denominator <= numerator * Zpos (Qden t))
  /\ Class result = ClassNone
  /\ Confidence result
     = confidenceOfRatio (inject_Z numerator / inject_Z denominator)
  /\ MinResultConfidence <= Confidence result <= MaxResultConfidence
  /\ (forall numerator', numerator <= numerator' ->
      Confidence result
      <= Confidence (MakeProportionalResult name numerator' denominator t))
  /\ Pass (MakeProportionalResult name 8 10 threshold) = true
  /\ Pass (MakeProportionalResult name 3 5 threshold) = false.
Proof.
  intros Hd Ht0 Ht1 result. subst result.
  rewrite (proportional_unfold name numerator denominator t Hd). simpl.
  repeat split.
  - apply Qle_bool_iff.
  - apply Qle_bool_iff.
  - intros H. apply threshold_le_ratio; [exact Hd|].
    apply Qle_bool_iff. exact H.
  - intros H. apply Qle_bool_iff, threshold_le_ratio; assumption.
  - apply confidenceOfRatio_bounded.
  - apply confidenceOfRatio_bounded.
  - intros n' Hn. rewrite (proportional_unfold name n' denominator t Hd).
    simpl. apply confidenceOfRatio_le, ratio_le; assumption.
Qed.

Lemma MakeProportionalResult_rule_witness :
  (Pass (MakeProportionalResult CheckCodeReview 8 10 threshold) = true <->
   3 * 10 <= 8 * 4)
  /\ Confidence (MakeProportionalResult CheckCodeReview 8 10 threshold) = 8
  /\ Confidence (MakeProportionalResult CheckCodeReview 8 10 threshold)
     <= Confidence (MakeProportionalResult CheckCodeReview 9 10 threshold).
Proof.
  assert (Hd : 0 < 10) by lia.
  assert (Ht0 : (0 < threshold)%Q) by reflexivity.
  assert (Ht1 : (threshold <= 1)%Q) by (unfold threshold, Qle; simpl; lia).
  destruct (MakeProportionalResult_rule CheckCodeReview 8 10 threshold
              Hd Ht0 Ht1) as (_ & Hint & _ & _ & _ & Hmono & _).
  split; [exact Hint|]. split; [reflexivity|].
  apply Hmono. lia.
Defined.

(** The results the constructors of the heuristics give are named after
    the check. *)
Lemma perform_IsPrReviewRequired_name (c : CheckRequest) :
  Name (IsPrReviewRequired c) = CheckCodeReview.
Proof.
  unfold IsPrReviewRequired, IsPrReviewRequired_call.
  destruct (Repositories_Get _ _ _) as [r|e]; [|reflexivity].
  destruct (Repositories_GetBranchProtection _ _ _ _) as [bp|e];
    [|reflexivity].
  destruct (GetRequiredPullRequestReviews bp) as [reviews|]; [|reflexivity].
  destruct (RequiredApprovingReviewCount reviews >=? 1); reflexivity.
Qed.

Lemma withName_same (r : CheckResult) : withName (Name r) r = r.
Proof. destruct r. reflexivity. Qed.

(** C5. [anyOf] runs its children in declaration order against the same
    request and stops at the first definitive pass: when no child before
    [A] passes and [A] does, the children evaluated are exactly those up
    to [A], the Result is [A]'s with the combinator's name, and it is
    the same whatever children follow [A], passing or not. For
    [DoesCodeReview]: a pass of [IsPrReviewRequired] is the Result. *)
Theorem MultiCheckOr_first_pass_wins
  (name : string) (pre post : list CheckFn) (A : CheckFn)
  (c : CheckRequest) :
  (forall fn, In fn pre -> isDefinitivePass (fn c) = false) ->
  isDefinitivePass (A c) = true ->
  MultiCheckOr name (pre ++ A :: post)%list c = withName name (A c)
  /\ Name (MultiCheckOr name (pre ++ A :: post)%list c) = name
  /\ Pass (MultiCheckOr name (pre ++ A :: post)%list c) = Pass (A c)
  /\ Confidence (MultiCheckOr name (pre ++ A :: post)%list c)
     = Confidence (A c)
  /\ observed (pre ++ A :: post)%list c = (resultsOf pre c ++ [A c])%list
  /\ (forall post' : list CheckFn,
        MultiCheckOr name (pre ++ A :: post')%list c
        = MultiCheckOr name (pre ++ A :: post)%list c)
  /\ (A = IsPrReviewRequired -> DoesCodeReview c = IsPrReviewRequired c).
Proof.
  intros Hpre HA.
  assert (Hres : forall post',
             MultiCheckOr name (pre ++ A :: post')%list c
             = withName name (A c)).
  { intros post'. unfold MultiCheckOr, foldResults.
    rewrite (observed_first_pass pre post' A c Hpre HA).
    rewrite (find_first isDefinitivePass (resultsOf pre c) [] (A c)).
    - reflexivity.
    - apply resultsOf_all. exact Hpre.
    - exact HA. }
  rewrite (Hres post).
  repeat split.
  - apply observed_first_pass; assumption.
  - intros post'. apply Hres.
  - intros ->. unfold DoesCodeReview, MultiCheckOr, foldResults.
    simpl observed. rewrite HA. simpl find. rewrite HA.
    rewrite <- (perform_IsPrReviewRequired_name c) at 1.
    apply withName_same.
Qed.

Lemma MultiCheckOr_first_pass_wins_witness :
  MultiCheckOr "any" [inconclusive "none"; retries "reset";
                      passes 7; passes 10; retries "late"]
    (request unreachable)
  = withName "any" (passes 7 (request unreachable))
  /\ observed [inconclusive "none"; retries "reset";
               passes 7; passes 10; retries "late"] (request unreachable)
     = [inconclusive "none" (request unreachable);
        retries "reset" (request unreachable);
        passes 7 (request unreachable)].
Proof.
  assert (Hpre : forall fn : CheckFn,
             In fn [inconclusive "none"; retries "reset"] ->
             isDefinitivePass (fn (request unreachable)) = false).
  { intros fn [<- | [<- | []]]; reflexivity. }
  destruct (MultiCheckOr_first_pass_wins "any"
              [inconclusive "none"; retries "reset"]
              [passes 10; retries "late"] (passes 7)
              (request unreachable) Hpre eq_refl)
    as (Hres & _ & _ & _ & Hobs & _).
  split; [exact Hres | exact Hobs].
Defined.

(** C6. When no child of [anyOf] passes definitively: the first
    retryable Result, if a child gave one, is the Result; without any
    retryable Result, the last inconclusive Result observed is the
    Result; and [anyOf] of no children is inconclusive. *)
Theorem MultiCheckOr_without_pass
  (name : string) (fns : list CheckFn) (c : CheckRequest) :
  (forall fn, In fn fns -> isDefinitivePass (fn c) = false) ->
  (forall (pre post : list CheckFn) (R : CheckFn),
      fns = (pre ++ R :: post)%list ->
      (forall fn, In fn pre -> isRetryable (fn c) = false) ->
      isRetryable (R c) = true ->
      MultiCheckOr name fns c = R c)
  /\ ((forall fn, In fn fns -> isRetryable (fn c) = false) ->
      forall (pre post : list CheckFn) (I : CheckFn),
        fns = (pre ++ I :: post)%list ->
        isInconclusive (I c) = true ->
        (forall fn, In fn post -> isInconclusive (fn c) = false) ->
        MultiCheckOr name fns c = I c)
  /\ Class (MultiCheckOr name [] c) = ClassInconclusive.
Proof.
  intros Hpass.
  assert (Hfind : find isDefinitivePass (observed fns c) = None).
  { rewrite (observed_no_pass fns c Hpass).
    apply find_all_false, resultsOf_all. exact Hpass. }
  split; [|split].
  - intros pre post R -> Hpre HR.
    unfold MultiCheckOr, foldResults. rewrite Hfind.
    rewrite (observed_no_pass _ c Hpass).
    unfold resultsOf. rewrite map_app. simpl map.
    rewrite (find_first isRetryable _ _ (R c)).
    + reflexivity.
    + apply (resultsOf_all isRetryable pre c Hpre).
    + exact HR.
  - intros Hretry pre post I -> HI Hpost.
    unfold MultiCheckOr, foldResults. rewrite Hfind.
    rewrite (observed_no_pass _ c Hpass).
    rewrite (find_all_false isRetryable);
      [|apply resultsOf_all; exact Hretry].
    unfold resultsOf. rewrite map_app. simpl map.
    rewrite rev_app_distr. simpl rev. rewrite <- app_assoc. simpl app.
    rewrite (find_first isInconclusive _ _ (I c)).
    + reflexivity.
    + intros r Hr. apply in_rev in Hr.
      apply (resultsOf_all isInconclusive post c Hpost). exact Hr.
    + exact HI.
  - reflexivity.
Qed.

Lemma MultiCheckOr_without_pass_witness :
  MultiCheckOr "any" [inconclusive "a"; retries "first"; inconclusive "b";
                      retries "second"] (request unreachable)
  = MakeRetryResult "child" (Some "first")
  /\ MultiCheckOr "any" [inconclusive "a"; inconclusive "b"]
       (request unreachable)
     = MakeInconclusiveResult "child" (Some "b").
Proof.
  split.
  - assert (Hpass : forall fn : CheckFn,
               In fn [inconclusive "a"; retries "first"; inconclusive "b";
                      retries "second"] ->
               isDefinitivePass (fn (request unreachable)) = false).
    { intros fn [<- | [<- | [<- | [<- | []]]]]; reflexivity. }
    destruct (MultiCheckOr_without_pass "any" _ (request unreachable) Hpass)
      as (Hretry & _ & _).
    apply (Hretry [inconclusive "a"]
                  [inconclusive "b"; retries "second"] (retries "first")).
    + reflexivity.
    + intros fn [<- | []]; reflexivity.
    + reflexivity.
  - assert (Hpass : forall fn : CheckFn,
               In fn [inconclusive "a"; inconclusive "b"] ->
               isDefinitivePass (fn (request unreachable)) = false).
    { intros fn [<- | [<- | []]]; reflexivity. }
    destruct (MultiCheckOr_without_pass "any" _ (request unreachable) Hpass)
      as (_ & Hinc & _).
    apply (Hinc ltac:(intros fn [<- | [<- | []]]; reflexivity)
                [inconclusive "a"] [] (inconclusive "b")).
    + reflexivity.
    + reflexivity.
    + intros fn [].
Defined.

(** C1, as stated, fails. With the reviews of a merged pull request
    unreachable, [GithubCodeReview] goes on and scores 0 of 1: its
    Result is not retryable. With the pull-request listing unreachable,
    [GithubCodeReview] and [ProwCodeReview] answer inconclusive. *)
Lemma fetch_error_without_retry :
  PullRequests_List reviewsUnreachable "ossf" "scorecard" "closed"
  = Ok [mergedPr 7 []]
  /\ PullRequests_ListReviews reviewsUnreachable "ossf" "scorecard" 7
     = Err transportError
  /\ GithubCodeReview (request reviewsUnreachable)
     = MakeProportionalResult CheckCodeReview 0 1 threshold
  /\ Class (GithubCodeReview (request reviewsUnreachable)) <> ClassRetryable
  /\ PullRequests_List unreachable "ossf" "scorecard" "closed"
     = Err transportError
  /\ Class (GithubCodeReview (request unreachable)) <> ClassRetryable
  /\ Class (ProwCodeReview (request unreachable)) <> ClassRetryable.
Proof.
  repeat split; try reflexivity; vm_compute; discriminate.
Qed.

(** C1 (amended). An error of the repository-metadata fetch in
    [IsPrReviewRequired], and of the commit listing in
    [CommitMessageHints], ends the check at once with a retryable
    Result that carries the cause. An error of the review listing of a
    merged pull request inside the loop of [GithubCodeReview] does not
    end the check: the pull request is counted as merged, not as
    reviewed, and the loop goes on with the next one. *)
Theorem fetch_errors_classified (c : CheckRequest) (e : error) :
  (Repositories_Get (Client c) (Owner c) (Repo c) = Err e ->
   IsPrReviewRequired c = MakeRetryResult CheckCodeReview (Some e)
   /\ Class (IsPrReviewRequired c) = ClassRetryable)
  /\ (Repositories_ListCommits (Client c) (Owner c) (Repo c) = Err e ->
      CommitMessageHints c = MakeRetryResult CheckCodeReview (Some e)
      /\ Class (CommitMessageHints c) = ClassRetryable)
  /\ (forall (pr : PullRequest) (rest : list PullRequest) (st : Counters),
        isMerged pr = true ->
        PullRequests_ListReviews (Client c) (Owner c) (Repo c)
          (GetNumber pr) = Err e ->
        fold_left (GithubCodeReview_body c) (pr :: rest) st
        = fold_left (GithubCodeReview_body c) rest (fst st + 1, snd st)).
Proof.
  split; [|split].
  - intros H. unfold IsPrReviewRequired, IsPrReviewRequired_call.
    rewrite H. split; reflexivity.
  - intros H. unfold CommitMessageHints, CommitMessageHints_call.
    rewrite H. split; reflexivity.
  - intros pr rest [m r] Hm H. simpl fold_left. f_equal.
    unfold GithubCodeReview_body, isMerged in *.
    destruct (MergedAt pr); [|discriminate].
    rewrite H. reflexivity.
Qed.

Lemma fetch_errors_classified_witness :
  IsPrReviewRequired (request unreachable)
  = MakeRetryResult CheckCodeReview (Some transportError)
  /\ CommitMessageHints (request unreachable)
     = MakeRetryResult CheckCodeReview (Some transportError)
  /\ fold_left (GithubCodeReview_body (request reviewsUnreachable))
       [mergedPr 7 []; mergedPr 8 []] (0, 0)
     = fold_left (GithubCodeReview_body (request reviewsUnreachable))
         [mergedPr 8 []] (1, 0).
Proof.
  destruct (fetch_errors_classified (request unreachable) transportError)
    as (Hget & Hlist & _).
  destruct (fetch_errors_classified (request reviewsUnreachable)
              transportError) as (_ & _ & Hloop).
  split; [apply Hget; reflexivity|].
  split; [apply Hlist; reflexivity|].
  apply (Hloop (mergedPr 7 []) [mergedPr 8 []] (0, 0)); reflexivity.
Defined.

(** C2: the code at the failing input. When the listing holds no merged
    pull request, [GithubCodeReview] reaches its last line and calls the
    scoring rule with numerator 0 and denominator 0, where
    [ProwCodeReview] returns an inconclusive Result before its own call
    of the scoring rule. *)
Theorem GithubCodeReview_scores_empty_population
  (c : CheckRequest) (prs : list PullRequest) :
  PullRequests_List (Client c) (Owner c) (Repo c) "closed" = Ok prs ->
  mergedPullRequests prs = [] ->
  GithubCodeReview_call c
  = CallMakeProportionalResult CheckCodeReview 0 0 threshold
  /\ ProwCodeReview_call c
     = CallMakeInconclusiveResult CheckCodeReview (Some ErrorNoReviews).
Proof.
  intros Hlist Hnone.
  unfold GithubCodeReview_call, ProwCodeReview_call. rewrite Hlist.
  rewrite GithubCodeReview_loop_counts, ProwCodeReview_loop_counts.
  rewrite Hnone. split; reflexivity.
Qed.

Lemma GithubCodeReview_scores_empty_population_witness :
  GithubCodeReview_call (request nothingMerged)
  = CallMakeProportionalResult CheckCodeReview 0 0 threshold
  /\ ProwCodeReview_call (request nothingMerged)
     = CallMakeInconclusiveResult CheckCodeReview (Some ErrorNoReviews).
Proof.
  apply (GithubCodeReview_scores_empty_population (request nothingMerged)
           [closedUnmergedPr 1; closedUnmergedPr 2]); reflexivity.
Defined.

(** C3, as stated, fails: with a default branch that requires one
    approving review the Result passes with confidence 5, which is not
    the top of the confidence range. *)
Lemma required_review_confidence_below_max :
  IsPrReviewRequired (request protectedBranch)
  = {| Name := CheckCodeReview; Pass := true; Confidence := 5;
       Class := ClassNone; Cause := None |}
  /\ Confidence (IsPrReviewRequired (request protectedBranch))
     <> MaxResultConfidence.
Proof.
  split; [reflexivity | vm_compute; discriminate].
Qed.

(** C3 (amended). When the repository-metadata fetch and the
    branch-protection read both succeed and the default branch requires
    at least one approving review, [IsPrReviewRequired] returns a
    definitive pass with the fixed confidence 5, inside the confidence
    range and below its maximum; the Result is a function of these two
    fetches alone, so no pull-request or commit listing is sampled. *)
Theorem IsPrReviewRequired_enforced
  (c : CheckRequest) (r : Repository) (bp : Protection)
  (reviews : PullRequestReviewsEnforcement) :
  Repositories_Get (Client c) (Owner c) (Repo c) = Ok r ->
  Repositories_GetBranchProtection (Client c) (Owner c) (Repo c)
    (GetDefaultBranch r) = Ok bp ->
  GetRequiredPullRequestReviews bp = Some reviews ->
  1 <= RequiredApprovingReviewCount reviews ->
  IsPrReviewRequired c
  = {| Name := CheckCodeReview; Pass := true; Confidence := 5;
       Class := ClassNone; Cause := None |}
  /\ isDefinitivePass (IsPrReviewRequired c) = true
  /\ MinResultConfidence <= Confidence (IsPrReviewRequired c)
     < MaxResultConfidence
  /\ (forall c' : CheckRequest,
        Owner c' = Owner c -> Repo c' = Repo c ->
        Repositories_Get (Client c') = Repositories_Get (Client c) ->
        Repositories_GetBranchProtection (Client c')
        = Repositories_GetBranchProtection (Client c) ->
        IsPrReviewRequired c' = IsPrReviewRequired c).
Proof.
  intros Hget Hbp Hreq Hcount.
  assert (E : IsPrReviewRequired c
              = {| Name := CheckCodeReview; Pass := true; Confidence := 5;
                   Class := ClassNone; Cause := None |}).
  { unfold IsPrReviewRequired, IsPrReviewRequired_call.
    rewrite Hget, Hbp, Hreq.
    destruct (Z.geb_spec (RequiredApprovingReviewCount reviews) 1);
      [reflexivity | lia]. }
  rewrite E. repeat split.
  - discriminate.
  - intros c' Ho Hr Hg Hb. rewrite <- E.
    unfold IsPrReviewRequired, IsPrReviewRequired_call.
    rewrite Ho, Hr, Hg, Hb. reflexivity.
Qed.

Lemma IsPrReviewRequired_enforced_witness :
  IsPrReviewRequired (request protectedBranch)
  = {| Name := CheckCodeReview; Pass := true; Confidence := 5;
       Class := ClassNone; Cause := None |}
  /\ 5 < MaxResultConfidence.
Proof.
  destruct (IsPrReviewRequired_enforced (request protectedBranch)
              {| DefaultBranch := Some "main" |}
              {| RequiredPullRequestReviews :=
                   Some {| RequiredApprovingReviewCount := 1 |} |}
              {| RequiredApprovingReviewCount := 1 |}
              eq_refl eq_refl eq_refl ltac:(simpl; lia))
    as (H & _ & _ & _).
  split; [exact H | reflexivity].
Defined.

(** C8. In [IsPrReviewRequired], when the repository metadata is
    fetched and the branch-protection read fails, the check calls the
    inconclusive constructor with the cause: its Result is classified
    inconclusive, not retryable. *)
Theorem IsPrReviewRequired_unreadable_protection
  (c : CheckRequest) (r : Repository) (e : error) :
  Repositories_Get (Client c) (Owner c) (Repo c) = Ok r ->
  Repositories_GetBranchProtection (Client c) (Owner c) (Repo c)
    (GetDefaultBranch r) = Err e ->
  IsPrReviewRequired_call c
  = CallMakeInconclusiveResult CheckCodeReview (Some e)
  /\ Class (IsPrReviewRequired c) = ClassInconclusive
  /\ isRetryable (IsPrReviewRequired c) = false
  /\ Cause (IsPrReviewRequired c) = Some e.
Proof.
  intros Hget Hbp.
  unfold IsPrReviewRequired, IsPrReviewRequired_call.
  rewrite Hget, Hbp. repeat split.
Qed.

Lemma IsPrReviewRequired_unreadable_protection_witness :
  IsPrReviewRequired_call (request protectionUnreadable)
  = CallMakeInconclusiveResult CheckCodeReview (Some forbidden)
  /\ Class (IsPrReviewRequired (request protectionUnreadable))
     = ClassInconclusive.
Proof.
  destruct (IsPrReviewRequired_unreadable_protection
              (request protectionUnreadable)
              {| DefaultBranch := Some "main" |} forbidden
              eq_refl eq_refl) as (Hcall & Hclass & _).
  split; [exact Hcall | exact Hclass].
Defined.

(** C4, as stated, fails: two merged pull requests without a review
    label, and one commit by a person without a review trailer, are
    non-empty populations with no positive observation, and
    [ProwCodeReview] and [CommitMessageHints] answer inconclusive there,
    not the scoring rule's Result. *)
Lemma unreviewed_population_is_inconclusive :
  mergedPullRequests [mergedPr 1 []; mergedPr 2 ["bug"]]
  = [mergedPr 1 []; mergedPr 2 ["bug"]]
  /\ ProwCodeReview (request unreviewed)
     = MakeInconclusiveResult CheckCodeReview (Some ErrorNoReviews)
  /\ ProwCodeReview (request unreviewed)
     <> MakeProportionalResult CheckCodeReview 0 2 threshold
  /\ humanCommits [commitBy "alice" "alice" "Fix the parser"]
     = [commitBy "alice" "alice" "Fix the parser"]
  /\ CommitMessageHints (request unreviewed)
     = MakeInconclusiveResult CheckCodeReview (Some ErrorNoReviews)
  /\ CommitMessageHints (request unreviewed)
     <> MakeProportionalResult CheckCodeReview 0 1 threshold.
Proof.
  repeat split; try reflexivity; vm_compute; discriminate.
Qed.

(** C4 (amended). When its listing is fetched, [GithubCodeReview] with a
    non-empty population of merged pull requests returns the scoring
    rule's Result for the reviewed ones out of the merged ones at
    threshold 0.75. [ProwCodeReview] and [CommitMessageHints] return the
    scoring rule's Result over their population at threshold 0.75 when
    at least one member is a positive observation, and an inconclusive
    Result (no reviews found) when none is, whether the population is
    empty or not. *)
Theorem sampling_heuristics_delegate (c : CheckRequest) :
  (forall prs : list PullRequest,
      PullRequests_List (Client c) (Owner c) (Repo c) "closed" = Ok prs ->
      let merged := mergedPullRequests prs in
      (merged <> [] ->
       GithubCodeReview c
       = MakeProportionalResult CheckCodeReview
           (size (filter (githubReviewed c) merged)) (size merged)
           (3 # 4))
      /\ (filter prowReviewed merged <> [] ->
          ProwCodeReview c
          = MakeProportionalResult CheckCodeReview
              (size (filter prowReviewed merged)) (size merged) (3 # 4))
      /\ (filter prowReviewed merged = [] ->
          ProwCodeReview c
          = MakeInconclusiveResult CheckCodeReview (Some ErrorNoReviews)))
  /\ (forall commits : list RepositoryCommit,
        Repositories_ListCommits (Client c) (Owner c) (Repo c)
        = Ok commits ->
        let eligible := humanCommits commits in
        (filter hasGerritTrailers eligible <> [] ->
         CommitMessageHints c
         = MakeProportionalResult CheckCodeReview
             (size (filter hasGerritTrailers eligible)) (size eligible)
             (3 # 4))
        /\ (filter hasGerritTrailers eligible = [] ->
            CommitMessageHints c
            = MakeInconclusiveResult CheckCodeReview
                (Some ErrorNoReviews))).
Proof.
  assert (Hpos : forall (A : Type) (l : list A),
             l <> [] -> (size l =? 0) = false).
  { intros A [|x l] H; [congruence|].
    rewrite size_cons. pose proof (size_nonneg l).
    destruct (Z.eqb_spec (size l + 1) 0); [lia | reflexivity]. }
  split.
  - intros prs Hlist merged. subst merged.
    unfold GithubCodeReview, GithubCodeReview_call,
      ProwCodeReview, ProwCodeReview_call.
    rewrite Hlist, GithubCodeReview_loop_counts, ProwCodeReview_loop_counts.
    split; [|split].
    + intros _. reflexivity.
    + intros H. rewrite (Hpos _ _ H). reflexivity.
    + intros H. rewrite H. reflexivity.
  - intros commits Hlist eligible. subst eligible.
    unfold CommitMessageHints, CommitMessageHints_call.
    rewrite Hlist, CommitMessageHints_loop_counts.
    split.
    + intros H. rewrite (Hpos _ _ H). reflexivity.
    + intros H. rewrite H. reflexivity.
Qed.

Lemma sampling_heuristics_delegate_witness :
  GithubCodeReview (request reviewed)
  = MakeProportionalResult CheckCodeReview 3 3 (3 # 4)
  /\ ProwCodeReview (request reviewed)
     = MakeProportionalResult CheckCodeReview 2 3 (3 # 4)
  /\ CommitMessageHints (request reviewed)
     = MakeProportionalResult CheckCodeReview 1 2 (3 # 4)
  /\ ProwCodeReview (request unreviewed)
     = MakeInconclusiveResult CheckCodeReview (Some ErrorNoReviews)
  /\ CommitMessageHints (request unreviewed)
     = MakeInconclusiveResult CheckCodeReview (Some ErrorNoReviews).
Proof.
  destruct (sampling_heuristics_delegate (request reviewed)) as (Hprs & Hcs).
  destruct (Hprs _ eq_refl) as (Hgithub & Hprow & _).
  destruct (Hcs _ eq_refl) as (Hhints & _).
  destruct (sampling_heuristics_delegate (request unreviewed))
    as (Hprs' & Hcs').
  destruct (Hprs' _ eq_refl) as (_ & _ & Hprow').
  destruct (Hcs' _ eq_refl) as (_ & Hhints').
  split; [apply Hgithub; discriminate|].
  split; [apply Hprow; discriminate|].
  split; [apply Hhints; discriminate|].
  split; [apply Hprow'; reflexivity | apply Hhints'; reflexivity].
Defined.

(** C9, as stated with the match on the commit author, fails: a commit
    written by an account whose name contains "bot" and committed by
    another account is not skipped; it adds one to the denominator and,
    with its review trailers, one to the numerator. *)
Lemma bot_author_is_counted :
  GetLogin (GetAuthor botAuthored) = "dependabot[bot]"
  /\ Contains (GetLogin (GetAuthor botAuthored)) "bot" = true
  /\ isBotAuthor botAuthored = true
  /\ isBot botAuthored = false
  /\ CommitMessageHints_loop [botAuthored] = (1, 1)
  /\ CommitMessageHints_loop [botAuthored] <> CommitMessageHints_loop [].
Proof.
  repeat split; try reflexivity; vm_compute; discriminate.
Qed.

(** C9 (amended). [CommitMessageHints] skips every commit whose
    committer login contains "bot" or "gardener": such a commit adds to
    neither counter, so the listing with it and the listing without it
    give the same numerator and denominator, and the same Result. *)
Theorem bot_committer_is_skipped
  (pre post : list RepositoryCommit) (commit : RepositoryCommit) :
  Contains (GetLogin (GetCommitter commit)) "bot" = true
  \/ Contains (GetLogin (GetCommitter commit)) "gardener" = true ->
  isBot commit = true
  /\ (forall st : Counters, CommitMessageHints_body st commit = st)
  /\ humanCommits (pre ++ commit :: post)%list
     = humanCommits (pre ++ post)%list
  /\ CommitMessageHints_loop (pre ++ commit :: post)%list
     = CommitMessageHints_loop (pre ++ post)%list
  /\ (forall c c' : CheckRequest,
        Repositories_ListCommits (Client c) (Owner c) (Repo c)
        = Ok (pre ++ commit :: post)%list ->
        Repositories_ListCommits (Client c') (Owner c') (Repo c')
        = Ok (pre ++ post)%list ->
        CommitMessageHints c = CommitMessageHints c').
Proof.
  intros H.
  assert (Hbot : isBot commit = true).
  { unfold isBot. simpl containsAny.
    destruct H as [H | H]; rewrite H; [reflexivity|].
    destruct (Contains _ "bot"); reflexivity. }
  assert (Hbody : forall st, CommitMessageHints_body st commit = st).
  { intros [t r]. unfold CommitMessageHints_body. rewrite Hbot.
    reflexivity. }
  assert (Hloop : CommitMessageHints_loop (pre ++ commit :: post)%list
                  = CommitMessageHints_loop (pre ++ post)%list).
  { unfold CommitMessageHints_loop. rewrite !fold_left_app.
    simpl fold_left. rewrite Hbody. reflexivity. }
  repeat split.
  - exact Hbot.
  - exact Hbody.
  - unfold humanCommits. rewrite !filter_app. simpl filter.
    rewrite Hbot. reflexivity.
  - exact Hloop.
  - intros c c' Hc Hc'. unfold CommitMessageHints, CommitMessageHints_call.
    rewrite Hc, Hc', Hloop. reflexivity.
Qed.

Lemma bot_committer_is_skipped_witness :
  isBot botCommitted = true
  /\ CommitMessageHints_loop
       [commitBy "alice" "alice" gerritMessage; botCommitted;
        commitBy "carol" "carol" "Typo"]
     = CommitMessageHints_loop
         [commitBy "alice" "alice" gerritMessage;
          commitBy "carol" "carol" "Typo"].
Proof.
  destruct (bot_committer_is_skipped
              [commitBy "alice" "alice" gerritMessage]
              [commitBy "carol" "carol" "Typo"] botCommitted
              (or_intror eq_refl)) as (Hbot & _ & _ & Hloop & _).
  split; [exact Hbot | exact Hloop].
Defined.

(** C10. Whatever the evidence, the numerator a heuristic hands to the
    scoring rule lies between zero and the denominator, and the observed
    ratio is at most 1. One turn of each loop adds at most one to the
    reviewed count, and only for an item it also adds to the total: in
    [GithubCodeReview] a pull request with an approved review and a
    merge commit by somebody else is counted once. *)
Theorem numerator_within_denominator (c : CheckRequest) :
  numeratorWithinDenominator (GithubCodeReview_call c)
  /\ numeratorWithinDenominator (ProwCodeReview_call c)
  /\ numeratorWithinDenominator (CommitMessageHints_call c)
  /\ ratioAtMostOne (GithubCodeReview_call c)
  /\ ratioAtMostOne (ProwCodeReview_call c)
  /\ ratioAtMostOne (CommitMessageHints_call c)
  /\ (forall (st : Counters) (pr : PullRequest),
        let st' := GithubCodeReview_body c st pr in
        0 <= snd st' - snd st <= fst st' - fst st /\ fst st' - fst st <= 1)
  /\ (forall (st : Counters) (pr : PullRequest),
        let st' := ProwCodeReview_body st pr in
        0 <= snd st' - snd st <= fst st' - fst st /\ fst st' - fst st <= 1)
  /\ (forall (st : Counters) (commit : RepositoryCommit),
        let st' := CommitMessageHints_body st commit in
        0 <= snd st' - snd st <= fst st' - fst st /\ fst st' - fst st <= 1)
  /\ GithubCodeReview_body (request reviewed) (0, 0) (mergedPr 3 []) = (1, 1).
Proof.
  assert (Hratio : forall r, numeratorWithinDenominator r -> ratioAtMostOne r).
  { intros [| |name n d t|]; simpl; try exact (fun _ => I).
    intros [_ Hn] Hd. apply Qle_shift_div_r.
    - change 0%Q with (inject_Z 0). rewrite <- Zlt_Qlt. exact Hd.
    - rewrite Qmult_1_l, <- Zle_Qle. exact Hn. }
  assert (Hstep : forall (A : Type) (el pos : A -> bool) st x,
             let st' := countingBody el pos st x in
             0 <= snd st' - snd st <= fst st' - fst st /\ fst st' - fst st <= 1).
  { intros A el pos [t r] x. unfold countingBody.
    destruct (el x), (pos x); simpl; lia. }
  assert (Hg : numeratorWithinDenominator (GithubCodeReview_call c)).
  { unfold GithubCodeReview_call.
    destruct (PullRequests_List _ _ _ _) as [prs|e]; [|exact I].
    rewrite GithubCodeReview_loop_counts. simpl. split.
    - apply size_nonneg.
    - apply size_filter_le. }
  assert (Hp : numeratorWithinDenominator (ProwCodeReview_call c)).
  { unfold ProwCodeReview_call.
    destruct (PullRequests_List _ _ _ _) as [prs|e]; [|exact I].
    rewrite ProwCodeReview_loop_counts.
    destruct (_ =? 0); [exact I|]. simpl. split.
    - apply size_nonneg.
    - apply size_filter_le. }
  assert (Hc : numeratorWithinDenominator (CommitMessageHints_call c)).
  { unfold CommitMessageHints_call.
    destruct (Repositories_ListCommits _ _ _) as [commits|e]; [|exact I].
    rewrite CommitMessageHints_loop_counts.
    destruct (_ =? 0); [exact I|]. simpl. split.
    - apply size_nonneg.
    - apply size_filter_le. }
  split; [exact Hg|]. split; [exact Hp|]. split; [exact Hc|].
  split; [exact (Hratio _ Hg)|]. split; [exact (Hratio _ Hp)|].
  split; [exact (Hratio _ Hc)|].
  split; [intros st pr; rewrite GithubCodeReview_body_counts; apply Hstep|].
  split; [intros st pr; rewrite ProwCodeReview_body_counts; apply Hstep|].
  split; [intros st x; rewrite CommitMessageHints_body_counts; apply Hstep|].
  reflexivity.
Qed.

(* ------------------------------------------------------------------ *)
(** ** Further properties of the heuristics *)

(** *** Substrings *)

Module substrings.

Lemma prefix_iff (sub s : string) :
  String.prefix sub s = true <-> exists post, s = sub ++ post.
Proof.
  revert s. induction sub as [|a sub IH]; intros s; simpl.
  - destruct s; split; intros _; try reflexivity; eexists; reflexivity.
  - destruct s as [|b s]; simpl.
    + split; [discriminate | intros [post H]; discriminate].
    + destruct (ascii_dec a b) as [->|Hab].
      * rewrite IH. split; intros [post H]; exists post.
        -- rewrite H. reflexivity.
        -- injection H as H. exact H.
      * split; [discriminate|]. intros [post H]. injection H as H1 H2.
        congruence.
Qed.

(** [strings.Contains]: the substring occurs somewhere in the string. *)
Lemma Contains_iff (s sub : string) :
  Contains s sub = true <-> exists pre post, s = pre ++ sub ++ post.
Proof.
  induction s as [|a s IH].
  - cbn [Contains]. rewrite orb_false_r, prefix_iff. split.
    + intros [post H]. exists "", post. exact H.
    + intros [[|b pre] [post H]]; [exists post; exact H | discriminate].
  - cbn [Contains]. rewrite orb_true_iff, prefix_iff, IH. split.
    + intros [[post H] | [pre [post H]]].
      * exists "", post. exact H.
      * exists (String a pre), post. rewrite H. reflexivity.
    + intros [[|b pre] [post H]].
      * left. exists post. exact H.
      * right. injection H as H1 H2. exists pre, post. exact H2.
Qed.

Lemma append_assoc (a b d : string) : (a ++ b) ++ d = a ++ (b ++ d).
Proof. induction a as [|x a IH]; simpl; [reflexivity | rewrite IH; reflexivity]. Qed.

(** A string that contains [a ++ b] contains [a]. *)
Lemma Contains_append_l (s a b : string) :
  Contains s (a ++ b) = true -> Contains s a = true.
Proof.
  rewrite !Contains_iff. intros [pre [post H]].
  exists pre, (b ++ post). rewrite H, append_assoc. reflexivity.
Qed.

End substrings.

(** *** The loops with a [break] *)

Module breaks.
Import github checker checks.

Lemma foundApprovedReview_In (reviews : list PullRequestReview) :
  foundApprovedReview reviews = true <->
  exists r, In r reviews /\ GetState r = "APPROVED".
Proof.
  induction reviews as [|r rest IH]; simpl.
  - split; [discriminate | intros [r [[] _]]].
  - destruct (String.eqb_spec (GetState r) "APPROVED") as [E|E].
    + split; [|reflexivity]. intros _. exists r. split; [left; reflexivity | exact E].
    + rewrite IH. split.
      * intros [r' [Hin Hr']]. exists r'. split; [right; exact Hin | exact Hr'].
      * intros [r' [[<- | Hin] Hr']]; [contradiction|].
        exists r'. split; assumption.
Qed.

Lemma hasReviewLabel_In (labels : list Label) :
  hasReviewLabel labels = true <->
  exists l, In l labels /\ (GetName l = "lgtm" \/ GetName l = "approved").
Proof.
  induction labels as [|l rest IH]; simpl.
  - split; [discriminate | intros [l [[] _]]].
  - destruct (String.eqb_spec (GetName l) "lgtm") as [E|E]; simpl.
    { split; [|reflexivity]. intros _. exists l.
      split; [left; reflexivity | left; exact E]. }
    destruct (String.eqb_spec (GetName l) "approved") as [E'|E'].
    { split; [|reflexivity]. intros _. exists l.
      split; [left; reflexivity | right; exact E']. }
    rewrite IH. split.
    + intros [l' [Hin Hl']]. exists l'. split; [right; exact Hin | exact Hl'].
    + intros [l' [[<- | Hin] Hl']]; [destruct Hl'; contradiction|].
      exists l'. split; assumption.
Qed.

Lemma committerDiffers_iff (commit : RepositoryCommit) :
  committerDiffers commit = true <->
  GetLogin (GetAuthor commit) <> ""
  /\ GetLogin (GetCommitter commit) <> ""
  /\ GetLogin (GetAuthor commit) <> GetLogin (GetCommitter commit).
Proof.
  unfold committerDiffers.
  rewrite !andb_true_iff, !negb_true_iff, !String.eqb_neq. tauto.
Qed.

End breaks.

(** *** Counting populations *)

Module sizes.
Import github checker checks population counting.

Lemma size_app {A : Type} (l1 l2 : list A) :
  size (l1 ++ l2)%list = size l1 + size l2.
Proof. unfold size. rewrite length_app. lia. Qed.

Lemma filter_Permutation {A : Type} (p : A -> bool) (l l' : list A) :
  Permutation l l' -> Permutation (filter p l) (filter p l').
Proof.
  induction 1 as [|x l l' _ IH|x y l|l l' l'' _ IH1 _ IH2]; simpl.
  - constructor.
  - destruct (p x); [constructor|]; exact IH.
  - destruct (p x), (p y); try apply Permutation_refl. constructor.
  - exact (Permutation_trans IH1 IH2).
Qed.

Lemma size_Permutation {A : Type} (l l' : list A) :
  Permutation l l' -> size l = size l'.
Proof. intros H. unfold size. rewrite (Permutation_length H). reflexivity. Qed.

(** A counting loop from any start adds its counts to the start. *)
Lemma countingBody_Permutation {A : Type} (el pos : A -> bool)
  (l l' : list A) (st : Counters) :
  Permutation l l' ->
  fold_left (countingBody el pos) l st
  = fold_left (countingBody el pos) l' st.
Proof.
  intros H. destruct st as [t r]. rewrite !fold_countingBody.
  rewrite (size_Permutation _ _ (filter_Permutation el _ _ H)).
  rewrite (size_Permutation _ _
             (filter_Permutation pos _ _ (filter_Permutation el _ _ H))).
  reflexivity.
Qed.

Lemma countingBody_app {A : Type} (el pos : A -> bool) (l1 l2 : list A) :
  fold_left (countingBody el pos) (l1 ++ l2)%list (0, 0)
  = (fst (fold_left (countingBody el pos) l1 (0, 0))
     + fst (fold_left (countingBody el pos) l2 (0, 0)),
     snd (fold_left (countingBody el pos) l1 (0, 0))
     + snd (fold_left (countingBody el pos) l2 (0, 0))).
Proof.
  rewrite !fold_countingBody, !filter_app, !size_app. simpl. f_equal.
Qed.

Lemma countingBody_bounds {A : Type} (el pos : A -> bool) (l : list A) :
  let st := fold_left (countingBody el pos) l (0, 0) in
  0 <= snd st /\ snd st <= fst st /\ fst st <= size l.
Proof.
  rewrite fold_countingBody. simpl.
  pose proof (size_nonneg (filter pos (filter el l))).
  pose proof (size_filter_le pos (filter el l)).
  pose proof (size_filter_le el l). lia.
Qed.

Lemma GithubCodeReview_loop_fold (c : CheckRequest) prs :
  GithubCodeReview_loop c prs
  = fold_left (countingBody isMerged (githubReviewed c)) prs (0, 0).
Proof.
  unfold GithubCodeReview_loop.
  apply fold_left_ext, GithubCodeReview_body_counts.
Qed.

Lemma ProwCodeReview_loop_fold prs :
  ProwCodeReview_loop prs
  = fold_left (countingBody isMerged prowReviewed) prs (0, 0).
Proof.
  unfold ProwCodeReview_loop.
  apply fold_left_ext, ProwCodeReview_body_counts.
Qed.

Lemma CommitMessageHints_loop_fold commits :
  CommitMessageHints_loop commits
  = fold_left (countingBody (fun x => negb (isBot x)) hasGerritTrailers)
      commits (0, 0).
Proof.
  unfold CommitMessageHints_loop.
  apply fold_left_ext, CommitMessageHints_body_counts.
Qed.

Lemma mergedPullRequests_nil (prs : list PullRequest) :
  mergedPullRequests prs = [] <->
  forall pr, In pr prs -> MergedAt pr = None.
Proof.
  unfold mergedPullRequests. induction prs as [|pr prs IH]; simpl.
  - split; [intros _ pr [] | reflexivity].
  - unfold isMerged at 1. destruct (MergedAt pr) eqn:E.
    + split; [discriminate|]. intros H.
      specialize (H pr (or_introl eq_refl)). congruence.
    + rewrite IH. split.
      * intros H pr' [<- | Hin]; [exact E | apply H; exact Hin].
      * intros H pr' Hin. apply H. right. exact Hin.
Qed.

Lemma size_zero_nil {A : Type} (l : list A) : size l = 0 <-> l = [].
Proof.
  destruct l as [|x l]; [split; reflexivity|].
  rewrite size_cons. pose proof (size_nonneg l).
  split; [lia | discriminate].
Qed.

End sizes.

Import substrings breaks sizes.

(** X1. A closed pull request that was never merged is ignored by both
    pull-request heuristics: with it or without it in the listing, the
    counters of [GithubCodeReview] and of [ProwCodeReview] are the same,
    and so is what [ProwCodeReview] returns. *)
Theorem unmerged_pull_request_ignored
  (c : CheckRequest) (pre post : list PullRequest) (pr : PullRequest) :
  MergedAt pr = None ->
  GithubCodeReview_loop c (pre ++ pr :: post)%list
  = GithubCodeReview_loop c (pre ++ post)%list
  /\ ProwCodeReview_loop (pre ++ pr :: post)%list
     = ProwCodeReview_loop (pre ++ post)%list
  /\ (forall c' : CheckRequest,
        PullRequests_List (Client c) (Owner c) (Repo c) "closed"
        = Ok (pre ++ pr :: post)%list ->
        PullRequests_List (Client c') (Owner c') (Repo c') "closed"
        = Ok (pre ++ post)%list ->
        ProwCodeReview_call c = ProwCodeReview_call c').
Proof.
  intros Hpr.
  assert (Hg : forall st, GithubCodeReview_body c st pr = st).
  { intros [m r]. unfold GithubCodeReview_body. rewrite Hpr. reflexivity. }
  assert (Hp : forall st, ProwCodeReview_body st pr = st).
  { intros [m r]. unfold ProwCodeReview_body. rewrite Hpr. reflexivity. }
  assert (Hloop : ProwCodeReview_loop (pre ++ pr :: post)%list
                  = ProwCodeReview_loop (pre ++ post)%list).
  { unfold ProwCodeReview_loop. rewrite !fold_left_app. simpl fold_left.
    rewrite Hp. reflexivity. }
  split; [|split].
  - unfold GithubCodeReview_loop. rewrite !fold_left_app. simpl fold_left.
    rewrite Hg. reflexivity.
  - exact Hloop.
  - intros c' Hc Hc'. unfold ProwCodeReview_call.
    rewrite Hc, Hc', Hloop. reflexivity.
Qed.

Lemma unmerged_pull_request_ignored_witness :
  GithubCodeReview_loop (request reviewed)
    [mergedPr 1 ["lgtm"]; closedUnmergedPr 2; mergedPr 3 []]
  = GithubCodeReview_loop (request reviewed)
      [mergedPr 1 ["lgtm"]; mergedPr 3 []]
  /\ ProwCodeReview_loop
       [mergedPr 1 ["lgtm"]; closedUnmergedPr 2; mergedPr 3 []]
     = ProwCodeReview_loop [mergedPr 1 ["lgtm"]; mergedPr 3 []].
Proof.
  destruct (unmerged_pull_request_ignored (request reviewed)
              [mergedPr 1 ["lgtm"]] [mergedPr 3 []] (closedUnmergedPr 2)
              eq_refl) as (Hg & Hp & _).
  split; [exact Hg | exact Hp].
Defined.

(** X2. The order of a listing does not matter: a permutation of the
    pull requests leaves the counters of [GithubCodeReview] and of
    [ProwCodeReview] unchanged, and a permutation of the commits those
    of [CommitMessageHints]. *)
Theorem listing_order_irrelevant
  (c : CheckRequest) (prs prs' : list PullRequest)
  (commits commits' : list RepositoryCommit) :
  Permutation prs prs' -> Permutation commits commits' ->
  GithubCodeReview_loop c prs = GithubCodeReview_loop c prs'
  /\ ProwCodeReview_loop prs = ProwCodeReview_loop prs'
  /\ CommitMessageHints_loop commits = CommitMessageHints_loop commits'.
Proof.
  intros Hprs Hcommits.
  rewrite !GithubCodeReview_loop_fold, !ProwCodeReview_loop_fold,
    !CommitMessageHints_loop_fold.
  repeat split; apply countingBody_Permutation; assumption.
Qed.

Lemma listing_order_irrelevant_witness :
  GithubCodeReview_loop (request reviewed) [mergedPr 1 []; mergedPr 3 []]
  = GithubCodeReview_loop (request reviewed) [mergedPr 3 []; mergedPr 1 []]
  /\ CommitMessageHints_loop [botCommitted; botAuthored]
     = CommitMessageHints_loop [botAuthored; botCommitted].
Proof.
  destruct (listing_order_irrelevant (request reviewed)
              [mergedPr 1 []; mergedPr 3 []] [mergedPr 3 []; mergedPr 1 []]
              [botCommitted; botAuthored] [botAuthored; botCommitted]
              (perm_swap _ _ _) (perm_swap _ _ _)) as (Hg & _ & Hc).
  split; [exact Hg | exact Hc].
Defined.

(** X3. The counters of a listing cut in two parts are the sums of the
    counters of the parts, for each of the three sampling loops. *)
Theorem counters_add_over_parts
  (c : CheckRequest) (prs1 prs2 : list PullRequest)
  (commits1 commits2 : list RepositoryCommit) :
  GithubCodeReview_loop c (prs1 ++ prs2)%list
  = (fst (GithubCodeReview_loop c prs1) + fst (GithubCodeReview_loop c prs2),
     snd (GithubCodeReview_loop c prs1) + snd (GithubCodeReview_loop c prs2))
  /\ ProwCodeReview_loop (prs1 ++ prs2)%list
     = (fst (ProwCodeReview_loop prs1) + fst (ProwCodeReview_loop prs2),
        snd (ProwCodeReview_loop prs1) + snd (ProwCodeReview_loop prs2))
  /\ CommitMessageHints_loop (commits1 ++ commits2)%list
     = (fst (CommitMessageHints_loop commits1)
        + fst (CommitMessageHints_loop commits2),
        snd (CommitMessageHints_loop commits1)
        + snd (CommitMessageHints_loop commits2)).
Proof.
  rewrite !GithubCodeReview_loop_fold, !ProwCodeReview_loop_fold,
    !CommitMessageHints_loop_fold.
  repeat split; apply countingBody_app.
Qed.

(** X4. The counters never leave the listing's size: in each loop the
    reviewed count is at least zero and at most the total, and the
    total is at most the number of listed items. *)
Theorem counters_bounded_by_listing
  (c : CheckRequest) (prs : list PullRequest)
  (commits : list RepositoryCommit) :
  (0 <= snd (GithubCodeReview_loop c prs)
   /\ snd (GithubCodeReview_loop c prs) <= fst (GithubCodeReview_loop c prs)
   /\ fst (GithubCodeReview_loop c prs) <= size prs)
  /\ (0 <= snd (ProwCodeReview_loop prs)
      /\ snd (ProwCodeReview_loop prs) <= fst (ProwCodeReview_loop prs)
      /\ fst (ProwCodeReview_loop prs) <= size prs)
  /\ (0 <= snd (CommitMessageHints_loop commits)
      /\ snd (CommitMessageHints_loop commits)
         <= fst (CommitMessageHints_loop commits)
      /\ fst (CommitMessageHints_loop commits) <= size commits).
Proof.
  rewrite !GithubCodeReview_loop_fold, !ProwCodeReview_loop_fold,
    !CommitMessageHints_loop_fold.
  split; [|split]; apply countingBody_bounds.
Qed.

(** X5. The search for an approval finds one wherever it stands: the
    reviews of a pull request hold an approved review exactly when some
    review in the list has the state APPROVED; a review without a state
    is never an approval, and the reviews of two pages hold one when
    either page does. *)
Theorem approval_found_anywhere (reviews more : list PullRequestReview) :
  (foundApprovedReview reviews = true <->
   exists r, In r reviews /\ State r = Some "APPROVED")
  /\ foundApprovedReview (reviews ++ more)%list
     = foundApprovedReview reviews || foundApprovedReview more.
Proof.
  split.
  - rewrite foundApprovedReview_In.
    split; intros [r [Hin Hr]]; exists r; (split; [exact Hin|]).
    + unfold GetState in Hr. destruct (State r); [congruence | discriminate].
    + unfold GetState. rewrite Hr. reflexivity.
  - induction reviews as [|r rest IH]; simpl; [reflexivity|].
    destruct (GetState r =? "APPROVED")%string; [reflexivity | exact IH].
Qed.

(** X6. A merged pull request counts as reviewed for [ProwCodeReview]
    exactly when one of its labels is named lgtm or approved, wherever
    the label stands; a label without a name never counts. *)
Theorem review_label_found_anywhere (labels : list Label) :
  hasReviewLabel labels = true <->
  exists l, In l labels
            /\ (LabelName l = Some "lgtm" \/ LabelName l = Some "approved").
Proof.
  rewrite hasReviewLabel_In.
  split; intros [l [Hin Hl]]; exists l; (split; [exact Hin|]).
  - unfold GetName in Hl. destruct (LabelName l) as [n|].
    + destruct Hl as [-> | ->]; [left | right]; reflexivity.
    + destruct Hl; discriminate.
  - unfold GetName. destruct Hl as [-> | ->]; [left | right]; reflexivity.
Qed.

(** X7. One turn of the loop of [GithubCodeReview] counts the pull
    request as merged and reviewed exactly when it was merged, its
    reviews could be listed, and either one of them is APPROVED or the
    merge commit could be fetched and has a known author and a known
    committer that differ. *)
Theorem GithubCodeReview_counts_reviewed_iff
  (c : CheckRequest) (st : Counters) (pr : PullRequest) :
  GithubCodeReview_body c st pr = (fst st + 1, snd st + 1) <->
  MergedAt pr <> None
  /\ exists reviews,
       PullRequests_ListReviews (Client c) (Owner c) (Repo c) (GetNumber pr)
       = Ok reviews
       /\ ((exists r, In r reviews /\ GetState r = "APPROVED")
           \/ exists commit,
                Repositories_GetCommit (Client c) (Owner c) (Repo c)
                  (GetMergeCommitSHA pr) = Ok commit
                /\ GetLogin (GetAuthor commit) <> ""
                /\ GetLogin (GetCommitter commit) <> ""
                /\ GetLogin (GetAuthor commit)
                   <> GetLogin (GetCommitter commit)).
Proof.
  destruct st as [m r]. unfold GithubCodeReview_body. simpl fst. simpl snd.
  destruct (MergedAt pr) as [t|].
  2:{ split; [intros H; injection H; lia | intros [H _]; congruence]. }
  destruct (PullRequests_ListReviews _ _ _ _) as [reviews|e].
  2:{ split; [intros H; injection H; lia|].
      intros [_ [reviews [H _]]]. discriminate. }
  destruct (foundApprovedReview reviews) eqn:Hfound.
  { split; [|reflexivity]. intros _. split; [discriminate|].
    exists reviews. split; [reflexivity|]. left.
    apply foundApprovedReview_In. exact Hfound. }
  assert (Hnone : ~ exists r0, In r0 reviews /\ GetState r0 = "APPROVED").
  { intros H. apply foundApprovedReview_In in H. congruence. }
  destruct (Repositories_GetCommit _ _ _ _) as [commit|e].
  2:{ split; [intros H; injection H; lia|].
      intros [_ [reviews' [E [H | [commit [H _]]]]]].
      - injection E as <-. contradiction.
      - discriminate. }
  destruct (committerDiffers commit) eqn:Hdiff.
  - split; [|reflexivity]. intros _. split; [discriminate|].
    exists reviews. split; [reflexivity|]. right. exists commit.
    split; [reflexivity|]. apply committerDiffers_iff. exact Hdiff.
  - split; [intros H; injection H; lia|].
    intros [_ [reviews' [E [H | [commit' [E' H]]]]]].
    + injection E as <-. contradiction.
    + injection E' as <-. apply committerDiffers_iff in H. congruence.
Qed.

(** X8. A commit is skipped as a bot's exactly when the login of its
    committer has "bot" or "gardener" somewhere inside it; a commit
    without a committer account is never skipped. *)
Theorem isBot_iff_substring (commit : RepositoryCommit) :
  (isBot commit = true <->
   exists pre post,
     GetLogin (GetCommitter commit) = pre ++ "bot" ++ post
     \/ GetLogin (GetCommitter commit) = pre ++ "gardener" ++ post)
  /\ (RC_Committer commit = None -> isBot commit = false)
  /\ (forall st : Counters,
        RC_Committer commit = None ->
        fst (CommitMessageHints_body st commit) = fst st + 1).
Proof.
  assert (Hnone : RC_Committer commit = None -> isBot commit = false).
  { intros H. unfold isBot, GetCommitter. rewrite H. reflexivity. }
  split; [|split; [exact Hnone|]].
  - unfold isBot. cbn [containsAny]. split.
    + destruct (Contains _ "bot") eqn:Hbot.
      * intros _. apply Contains_iff in Hbot.
        destruct Hbot as [pre [post H]]. exists pre, post. left. exact H.
      * destruct (Contains _ "gardener") eqn:Hg; [|discriminate].
        intros _. apply Contains_iff in Hg.
        destruct Hg as [pre [post H]]. exists pre, post. right. exact H.
    + intros [pre [post [H | H]]].
      * assert (E : Contains (GetLogin (GetCommitter commit)) "bot" = true)
          by (apply Contains_iff; exists pre, post; exact H).
        rewrite E. reflexivity.
      * assert (E : Contains (GetLogin (GetCommitter commit)) "gardener"
                    = true)
          by (apply Contains_iff; exists pre, post; exact H).
        rewrite E. destruct (Contains _ "bot"); reflexivity.
  - intros [t r] H. unfold CommitMessageHints_body.
    rewrite (Hnone H). destruct (hasGerritTrailers commit); reflexivity.
Qed.

(** X9. A commit counts as reviewed for [CommitMessageHints] exactly
    when its message holds both a line that starts with "Reviewed-on: "
    and a line that starts with "Reviewed-by: ", each after a line
    break, in any order. *)
Theorem hasGerritTrailers_iff (commit : RepositoryCommit) :
  hasGerritTrailers commit = true <->
  (exists pre post,
     GetMessage (GetCommit commit) = pre ++ nl ++ "Reviewed-on: " ++ post)
  /\ (exists pre post,
        GetMessage (GetCommit commit) = pre ++ nl ++ "Reviewed-by: " ++ post).
Proof.
  unfold hasGerritTrailers. rewrite andb_true_iff, !Contains_iff.
  split; intros [[p1 [q1 H1]] [p2 [q2 H2]]]; split.
  - exists p1, q1. rewrite H1. reflexivity.
  - exists p2, q2. rewrite H2. reflexivity.
  - exists p1, q1. rewrite H1. reflexivity.
  - exists p2, q2. rewrite H2. reflexivity.
Qed.

(** X10. A commit whose message has no line break, or that has no
    message at all, is never counted as reviewed: a trailer on the very
    first line is not seen. When its committer is not a bot the commit
    still adds one to the total. *)
Theorem single_line_message_unreviewed
  (st : Counters) (commit : RepositoryCommit) :
  Contains (GetMessage (GetCommit commit)) nl = false ->
  hasGerritTrailers commit = false
  /\ (isBot commit = false ->
      CommitMessageHints_body st commit = (fst st + 1, snd st)).
Proof.
  intros Hnl.
  assert (H : hasGerritTrailers commit = false).
  { unfold hasGerritTrailers.
    destruct (Contains _ (nl ++ "Reviewed-on: ")) eqn:E; [|reflexivity].
    apply Contains_append_l in E. congruence. }
  split; [exact H|].
  intros Hbot. destruct st as [t r]. unfold CommitMessageHints_body.
  rewrite Hbot, H. reflexivity.
Qed.

Lemma single_line_message_unreviewed_witness :
  hasGerritTrailers
    (commitBy "alice" "alice" "Reviewed-on: x Reviewed-by: y") = false
  /\ CommitMessageHints_body (4, 2)
       (commitBy "alice" "alice" "Reviewed-on: x Reviewed-by: y") = (5, 2).
Proof.
  destruct (single_line_message_unreviewed (4, 2)
              (commitBy "alice" "alice" "Reviewed-on: x Reviewed-by: y")
              eq_refl) as (H & Hbody).
  split; [exact H | apply Hbody; reflexivity].
Defined.

(** X11. [IsPrReviewRequired] returns its passing struct literal exactly
    when the repository metadata and the protection of the default
    branch are fetched and the protection holds a review requirement
    with at least one approving review; it returns a struct literal in
    no other case, and it never calls the scoring rule. *)
Theorem IsPrReviewRequired_pass_iff (c : CheckRequest) :
  ((exists r, IsPrReviewRequired_call c = Literal r) <->
   exists repo bp reviews,
     Repositories_Get (Client c) (Owner c) (Repo c) = Ok repo
     /\ Repositories_GetBranchProtection (Client c) (Owner c) (Repo c)
          (GetDefaultBranch repo) = Ok bp
     /\ RequiredPullRequestReviews bp = Some reviews
     /\ 1 <= RequiredApprovingReviewCount reviews)
  /\ (forall r, IsPrReviewRequired_call c = Literal r ->
        r = {| Name := CheckCodeReview; Pass := true; Confidence := 5;
               Class := ClassNone; Cause := None |})
  /\ (forall name n d t,
        IsPrReviewRequired_call c <> CallMakeProportionalResult name n d t).
Proof.
  unfold IsPrReviewRequired_call, GetRequiredPullRequestReviews.
  destruct (Repositories_Get _ _ _) as [repo|e].
  2:{ split; [split|split].
      - intros [r H]. discriminate.
      - intros (repo & bp & reviews & H & _). discriminate.
      - intros r H. discriminate.
      - intros name n d t H. discriminate. }
  destruct (Repositories_GetBranchProtection _ _ _ _) as [bp|e] eqn:Hbp.
  2:{ split; [split|split].
      - intros [r H]. discriminate.
      - intros (repo' & bp & reviews & H & H' & _).
        injection H as <-. congruence.
      - intros r H. discriminate.
      - intros name n d t H. discriminate. }
  destruct (RequiredPullRequestReviews bp) as [reviews|] eqn:Hreq.
  2:{ split; [split|split].
      - intros [r H]. discriminate.
      - intros (repo' & bp' & reviews & H & H' & H'' & _).
        injection H as <-. rewrite Hbp in H'. injection H' as <-.
        congruence.
      - intros r H. discriminate.
      - intros name n d t H. discriminate. }
  destruct (Z.geb_spec (RequiredApprovingReviewCount reviews) 1) as [Hc|Hc].
  - split; [split|split].
    + intros _. exists repo, bp, reviews. repeat split; assumption.
    + intros _. eexists. reflexivity.
    + intros r H. injection H as <-. reflexivity.
    + intros name n d t H. discriminate.
  - split; [split|split].
    + intros [r H]. discriminate.
    + intros (repo' & bp' & reviews' & H & H' & H'' & Hge).
      injection H as <-. rewrite Hbp in H'. injection H' as <-.
      rewrite Hreq in H''. injection H'' as <-. lia.
    + intros r H. discriminate.
    + intros name n d t H. discriminate.
Qed.

(** X12. When the protection of the default branch is read and asks for
    no approving review (no review requirement at all, or a required
    count below one), [IsPrReviewRequired] is inconclusive without a
    cause: it does not fail the check. *)
Theorem IsPrReviewRequired_not_enforced
  (c : CheckRequest) (repo : Repository) (bp : Protection) :
  Repositories_Get (Client c) (Owner c) (Repo c) = Ok repo ->
  Repositories_GetBranchProtection (Client c) (Owner c) (Repo c)
    (GetDefaultBranch repo) = Ok bp ->
  (forall reviews, RequiredPullRequestReviews bp = Some reviews ->
                   RequiredApprovingReviewCount reviews <= 0) ->
  IsPrReviewRequired_call c = CallMakeInconclusiveResult CheckCodeReview None.
Proof.
  intros Hget Hbp Hreq. unfold IsPrReviewRequired_call.
  rewrite Hget, Hbp. unfold GetRequiredPullRequestReviews.
  destruct (RequiredPullRequestReviews bp) as [reviews|]; [|reflexivity].
  specialize (Hreq reviews eq_refl).
  destruct (Z.geb_spec (RequiredApprovingReviewCount reviews) 1);
    [lia | reflexivity].
Qed.

Lemma IsPrReviewRequired_not_enforced_witness :
  IsPrReviewRequired_call (request unprotectedBranch)
  = CallMakeInconclusiveResult CheckCodeReview None.
Proof.
  apply (IsPrReviewRequired_not_enforced (request unprotectedBranch)
           {| DefaultBranch := None |}
           {| RequiredPullRequestReviews :=
                Some {| RequiredApprovingReviewCount := 0 |} |}).
  - reflexivity.
  - reflexivity.
  - intros reviews H. injection H as <-. simpl. lia.
Defined.

(** X13. Where a retryable Result can come from: [GithubCodeReview] and
    [ProwCodeReview] never call the retry constructor;
    [CommitMessageHints] calls it exactly when the commit listing fails
    and [IsPrReviewRequired] exactly when the repository fetch fails,
    each time with the check's name and the error of the fetch. *)
Theorem retry_sites (c : CheckRequest) (name : string) (err : option error) :
  GithubCodeReview_call c <> CallMakeRetryResult name err
  /\ ProwCodeReview_call c <> CallMakeRetryResult name err
  /\ (CommitMessageHints_call c = CallMakeRetryResult name err <->
      name = CheckCodeReview
      /\ exists e, err = Some e
                   /\ Repositories_ListCommits (Client c) (Owner c) (Repo c)
                      = Err e)
  /\ (IsPrReviewRequired_call c = CallMakeRetryResult name err <->
      name = CheckCodeReview
      /\ exists e, err = Some e
                   /\ Repositories_Get (Client c) (Owner c) (Repo c) = Err e).
Proof.
  split; [|split; [|split]].
  - unfold GithubCodeReview_call.
    destruct (PullRequests_List _ _ _ _) as [prs|e]; [|discriminate].
    destruct (GithubCodeReview_loop c prs). discriminate.
  - unfold ProwCodeReview_call.
    destruct (PullRequests_List _ _ _ _) as [prs|e]; [|discriminate].
    destruct (ProwCodeReview_loop prs) as [m r].
    destruct (r =? 0); discriminate.
  - unfold CommitMessageHints_call.
    destruct (Repositories_ListCommits _ _ _) as [commits|e].
    + destruct (CommitMessageHints_loop commits) as [t r]. split.
      * destruct (r =? 0); discriminate.
      * intros [_ [e [_ H]]]. discriminate.
    + split.
      * intros H. injection H as <- <-. split; [reflexivity|].
        exists e. split; reflexivity.
      * intros [-> [e' [-> H]]]. injection H as <-. reflexivity.
  - unfold IsPrReviewRequired_call.
    destruct (Repositories_Get _ _ _) as [repo|e].
    + split.
      * destruct (Repositories_GetBranchProtection _ _ _ _) as [bp|e];
          [|discriminate].
        destruct (GetRequiredPullRequestReviews bp) as [reviews|];
          [|discriminate].
        destruct (_ >=? 1); discriminate.
      * intros [_ [e [_ H]]]. discriminate.
    + split.
      * intros H. injection H as <- <-. split; [reflexivity|].
        exists e. split; reflexivity.
      * intros [-> [e' [-> H]]]. injection H as <-. reflexivity.
Qed.

(** X14. Whenever [ProwCodeReview] or [CommitMessageHints] reaches the
    scoring rule, it passes the check's name, the threshold 3/4, and a
    numerator of at least one that does not exceed the denominator: the
    denominator is never zero there. *)
Theorem label_and_trailer_scoring_positive
  (c : CheckRequest) (name : string) (n d : Z) (t : Q) :
  ProwCodeReview_call c = CallMakeProportionalResult name n d t
  \/ CommitMessageHints_call c = CallMakeProportionalResult name n d t ->
  name = CheckCodeReview /\ t = 3 # 4 /\ 1 <= n /\ n <= d.
Proof.
  assert (Hgen : forall (total reviewed : Z),
             0 <= reviewed -> reviewed <= total ->
             (if reviewed =? 0
              then CallMakeInconclusiveResult CheckCodeReview
                     (Some ErrorNoReviews)
              else CallMakeProportionalResult CheckCodeReview
                     reviewed total threshold)
             = CallMakeProportionalResult name n d t ->
             name = CheckCodeReview /\ t = 3 # 4 /\ 1 <= n /\ n <= d).
  { intros total reviewed H0 Hle H.
    destruct (Z.eqb_spec reviewed 0); [discriminate|].
    injection H as <- <- <- <-. repeat split; [lia | exact Hle]. }
  intros [H | H].
  - unfold ProwCodeReview_call in H.
    destruct (PullRequests_List _ _ _ _) as [prs|e]; [|discriminate].
    pose proof (countingBody_bounds isMerged prowReviewed prs) as Hb.
    rewrite <- ProwCodeReview_loop_fold in Hb.
    destruct (ProwCodeReview_loop prs) as [m r]. simpl in Hb.
    apply (Hgen m r); [lia | lia | exact H].
  - unfold CommitMessageHints_call in H.
    destruct (Repositories_ListCommits _ _ _) as [commits|e]; [|discriminate].
    pose proof (countingBody_bounds (fun x => negb (isBot x))
                  hasGerritTrailers commits) as Hb.
    rewrite <- CommitMessageHints_loop_fold in Hb.
    destruct (CommitMessageHints_loop commits) as [m r]. simpl in Hb.
    apply (Hgen m r); [lia | lia | exact H].
Qed.

Lemma label_and_trailer_scoring_positive_witness :
  ProwCodeReview_call (request reviewed)
  = CallMakeProportionalResult CheckCodeReview 2 3 (3 # 4)
  /\ 1 <= 2 /\ 2 <= 3.
Proof.
  split; [reflexivity|].
  apply (label_and_trailer_scoring_positive (request reviewed)
           CheckCodeReview 2 3 (3 # 4)).
  left. reflexivity.
Defined.

(** X15. When the pull-request listing is fetched, [GithubCodeReview]
    always reaches the scoring rule, with the number of merged pull
    requests as denominator; the denominator is zero exactly when no
    listed pull request was merged. *)
Theorem GithubCodeReview_denominator
  (c : CheckRequest) (prs : list PullRequest) :
  PullRequests_List (Client c) (Owner c) (Repo c) "closed" = Ok prs ->
  exists n d,
    GithubCodeReview_call c
    = CallMakeProportionalResult CheckCodeReview n d (3 # 4)
    /\ d = size (mergedPullRequests prs)
    /\ 0 <= n <= d
    /\ (d = 0 <-> forall pr, In pr prs -> MergedAt pr = None).
Proof.
  intros Hlist. unfold GithubCodeReview_call. rewrite Hlist.
  rewrite GithubCodeReview_loop_counts.
  eexists. eexists. split; [reflexivity|]. split; [reflexivity|].
  split.
  - split; [apply size_nonneg | apply size_filter_le].
  - rewrite size_zero_nil. apply mergedPullRequests_nil.
Qed.

Lemma GithubCodeReview_denominator_witness :
  exists n d,
    GithubCodeReview_call (request reviewed)
    = CallMakeProportionalResult CheckCodeReview n d (3 # 4)
    /\ d = 3.
Proof.
  destruct (GithubCodeReview_denominator (request reviewed) _ eq_refl)
    as (n & d & Hcall & Hd & _).
  exists n, d. split; [exact Hcall | exact Hd].
Defined.

(** *** The folding rule on the four heuristics *)

Module folding.
Import checker.

Lemma observed_In (fns : list CheckFn) (c : CheckRequest) (r : CheckResult) :
  In r (observed fns c) -> exists fn, In fn fns /\ r = fn c.
Proof.
  induction fns as [|fn fns IH]; simpl; [intros []|].
  destruct (isDefinitivePass (fn c)).
  - intros [<- | []]. exists fn. split; [left|]; reflexivity.
  - intros [<- | H].
    + exists fn. split; [left|]; reflexivity.
    + destruct (IH H) as [g [Hg E]]. exists g. split; [right|]; assumption.
Qed.

Lemma observed_pass (fns : list CheckFn) (c : CheckRequest) :
  (exists r, In r (observed fns c) /\ isDefinitivePass r = true) <->
  exists fn, In fn fns /\ isDefinitivePass (fn c) = true.
Proof.
  split.
  - intros [r [Hin Hr]]. destruct (observed_In fns c r Hin) as [fn [Hfn ->]].
    exists fn. split; assumption.
  - induction fns as [|fn fns IH]; intros [g [Hg Hpass]]; [destruct Hg|].
    simpl. destruct (isDefinitivePass (fn c)) eqn:E.
    + exists (fn c). split; [left; reflexivity | exact E].
    + destruct Hg as [<- | Hg]; [congruence|].
      destruct IH as [r [Hin Hr]]; [exists g; split; assumption|].
      exists r. split; [right|]; assumption.
Qed.

Lemma last_In_or_default {A : Type} (l : list A) (d : A) :
  last l d = d \/ In (last l d) l.
Proof.
  induction l as [|x l IH]; [left; reflexivity|].
  destruct l as [|y l]; [right; left; reflexivity|].
  destruct IH as [IH | IH].
  - left. exact IH.
  - right. right. exact IH.
Qed.

(** What the folding rule returns is the renamed first pass, one of the
    folded Results, or the inconclusive Result of an empty fold. *)
Lemma foldResults_cases (name : string) (rs : list CheckResult) :
  (exists r, In r rs /\ isDefinitivePass r = true
             /\ foldResults name rs = withName name r)
  \/ ((forall r, In r rs -> isDefinitivePass r = false)
      /\ (In (foldResults name rs) rs
          \/ foldResults name rs = MakeInconclusiveResult name None)).
Proof.
  unfold foldResults.
  destruct (find isDefinitivePass rs) as [r|] eqn:Hpass.
  { left. exists r. destruct (find_some _ _ Hpass) as [Hin Hr].
    repeat split; assumption. }
  right. split; [exact (find_none _ _ Hpass)|].
  destruct (find isRetryable rs) as [r|] eqn:Hretry.
  { left. exact (proj1 (find_some _ _ Hretry)). }
  destruct (find isInconclusive (rev rs)) as [r|] eqn:Hinc.
  { left. apply in_rev. exact (proj1 (find_some _ _ Hinc)). }
  destruct (last_In_or_default rs (MakeInconclusiveResult name None))
    as [H | H]; [right | left]; exact H.
Qed.

End folding.

Import folding.

Lemma heuristics_names (c : CheckRequest) :
  Name (IsPrReviewRequired c) = CheckCodeReview
  /\ Name (GithubCodeReview c) = CheckCodeReview
  /\ Name (ProwCodeReview c) = CheckCodeReview
  /\ Name (CommitMessageHints c) = CheckCodeReview.
Proof.
  assert (Hprop : forall n d t,
             Name (MakeProportionalResult CheckCodeReview n d t)
             = CheckCodeReview).
  { intros n d t. unfold MakeProportionalResult.
    destruct (d =? 0); reflexivity. }
  split; [|split; [|split]].
  - apply perform_IsPrReviewRequired_name.
  - unfold GithubCodeReview, GithubCodeReview_call.
    destruct (PullRequests_List _ _ _ _) as [prs|e]; [|reflexivity].
    destruct (GithubCodeReview_loop c prs) as [m r]. apply Hprop.
  - unfold ProwCodeReview, ProwCodeReview_call.
    destruct (PullRequests_List _ _ _ _) as [prs|e]; [|reflexivity].
    destruct (ProwCodeReview_loop prs) as [m r].
    destruct (r =? 0); [reflexivity | apply Hprop].
  - unfold CommitMessageHints, CommitMessageHints_call.
    destruct (Repositories_ListCommits _ _ _) as [commits|e]; [|reflexivity].
    destruct (CommitMessageHints_loop commits) as [m r].
    destruct (r =? 0); [reflexivity | apply Hprop].
Qed.

(** X16. Every Result of the four heuristics carries the name under
    which the check is registered, Code-Review, whatever the evidence
    and whichever return is taken. *)
Theorem heuristics_named_after_check (c : CheckRequest) :
  Name (IsPrReviewRequired c) = CheckCodeReview
  /\ Name (GithubCodeReview c) = CheckCodeReview
  /\ Name (ProwCodeReview c) = CheckCodeReview
  /\ Name (CommitMessageHints c) = CheckCodeReview.
Proof.
  assert (Hprop : forall n d t,
             Name (MakeProportionalResult CheckCodeReview n d t)
             = CheckCodeReview).
  { intros n d t. unfold MakeProportionalResult.
    destruct (d =? 0); reflexivity. }
  split; [|split; [|split]].
  - unfold IsPrReviewRequired, IsPrReviewRequired_call.
    destruct (Repositories_Get _ _ _) as [r|e]; [|reflexivity].
    destruct (Repositories_GetBranchProtection _ _ _ _) as [bp|e];
      [|reflexivity].
    destruct (GetRequiredPullRequestReviews bp) as [reviews|]; [|reflexivity].
    destruct (_ >=? 1); reflexivity.
  - unfold GithubCodeReview, GithubCodeReview_call.
    destruct (PullRequests_List _ _ _ _) as [prs|e]; [|reflexivity].
    destruct (GithubCodeReview_loop c prs) as [m r]. apply Hprop.
  - unfold ProwCodeReview, ProwCodeReview_call.
    destruct (PullRequests_List _ _ _ _) as [prs|e]; [|reflexivity].
    destruct (ProwCodeReview_loop prs) as [m r].
    destruct (r =? 0); [reflexivity | apply Hprop].
  - unfold CommitMessageHints, CommitMessageHints_call.
    destruct (Repositories_ListCommits _ _ _) as [commits|e]; [|reflexivity].
    destruct (CommitMessageHints_loop commits) as [m r].
    destruct (r =? 0); [reflexivity | apply Hprop].
Qed.

(** X17. An approved review makes the merge commit irrelevant: when
    every merged pull request of a listing whose reviews can be listed
    has an approved one, the counters of [GithubCodeReview] are the same
    against any provider that answers the review listings alike,
    whatever it answers for the merge commits. *)
Theorem approval_makes_merge_commit_irrelevant
  (c c' : CheckRequest) (prs : list PullRequest) :
  Owner c' = Owner c -> Repo c' = Repo c ->
  PullRequests_ListReviews (Client c') = PullRequests_ListReviews (Client c) ->
  (forall pr reviews,
      In pr prs -> MergedAt pr <> None ->
      PullRequests_ListReviews (Client c) (Owner c) (Repo c) (GetNumber pr)
      = Ok reviews ->
      foundApprovedReview reviews = true) ->
  GithubCodeReview_loop c prs = GithubCodeReview_loop c' prs.
Proof.
  intros Ho Hr Hrev Happroved.
  rewrite !GithubCodeReview_loop_counts. f_equal. f_equal.
  apply filter_ext_in. intros pr Hin.
  unfold mergedPullRequests in Hin. apply filter_In in Hin.
  destruct Hin as [Hin Hm].
  unfold githubReviewed. rewrite Ho, Hr, Hrev.
  destruct (PullRequests_ListReviews _ _ _ _) as [reviews|e] eqn:E;
    [|reflexivity].
  rewrite (Happroved pr reviews Hin); [reflexivity | | exact E].
  unfold isMerged in Hm. destruct (MergedAt pr); [discriminate|discriminate].
Qed.

Lemma approval_makes_merge_commit_irrelevant_witness :
  GithubCodeReview_loop (request reviewed) [mergedPr 3 []; closedUnmergedPr 2]
  = GithubCodeReview_loop (request approvedOnly)
      [mergedPr 3 []; closedUnmergedPr 2].
Proof.
  apply (approval_makes_merge_commit_irrelevant
           (request reviewed) (request approvedOnly)
           [mergedPr 3 []; closedUnmergedPr 2]
           eq_refl eq_refl eq_refl).
  intros pr reviews [<- | [<- | []]] Hm H.
  - injection H as <-. reflexivity.
  - contradiction Hm. reflexivity.
Defined.

(** X18. [GithubCodeReview] and [ProwCodeReview] sample the same
    population: against the same request, whenever both reach the
    scoring rule they pass the same denominator, the same threshold and
    the same name. *)
Theorem pull_request_heuristics_share_denominator
  (c : CheckRequest) (name name' : string) (n d n' d' : Z) (t t' : Q) :
  GithubCodeReview_call c = CallMakeProportionalResult name n d t ->
  ProwCodeReview_call c = CallMakeProportionalResult name' n' d' t' ->
  d = d' /\ t = t' /\ name = name'.
Proof.
  unfold GithubCodeReview_call, ProwCodeReview_call.
  destruct (PullRequests_List _ _ _ _) as [prs|e]; [|discriminate].
  rewrite GithubCodeReview_loop_counts, ProwCodeReview_loop_counts.
  intros Hg Hp. injection Hg as <- <- <- <-.
  destruct (_ =? 0); [discriminate|].
  injection Hp as <- <- <- <-. repeat split.
Qed.

Lemma pull_request_heuristics_share_denominator_witness :
  GithubCodeReview_call (request reviewed)
  = CallMakeProportionalResult CheckCodeReview 3 3 (3 # 4)
  /\ ProwCodeReview_call (request reviewed)
     = CallMakeProportionalResult CheckCodeReview 2 3 (3 # 4)
  /\ 3 = 3.
Proof.
  split; [reflexivity|]. split; [reflexivity|].
  apply (pull_request_heuristics_share_denominator (request reviewed)
           CheckCodeReview CheckCodeReview 3 3 2 3 (3 # 4) (3 # 4));
    reflexivity.
Defined.

(** X19. [DoesCodeReview], the fold of the four heuristics in the order
    [IsPrReviewRequired], [GithubCodeReview], [ProwCodeReview],
    [CommitMessageHints], passes definitively exactly when one of the
    four does, and its Result is always named Code-Review. *)
Theorem DoesCodeReview_pass_iff (c : CheckRequest) :
  (isDefinitivePass (DoesCodeReview c) = true <->
   isDefinitivePass (IsPrReviewRequired c) = true
   \/ isDefinitivePass (GithubCodeReview c) = true
   \/ isDefinitivePass (ProwCodeReview c) = true
   \/ isDefinitivePass (CommitMessageHints c) = true)
  /\ Name (DoesCodeReview c) = CheckCodeReview.
Proof.
  pose proof (heuristics_names c) as (N1 & N2 & N3 & N4).
  set (fns := [IsPrReviewRequired; GithubCodeReview; ProwCodeReview;
               CommitMessageHints]).
  assert (Hname : forall r, In r (observed fns c) -> Name r = CheckCodeReview).
  { intros r Hr. destruct (observed_In fns c r Hr) as [fn [Hfn ->]].
    destruct Hfn as [<- | [<- | [<- | [<- | []]]]]; assumption. }
  assert (Hany : (exists fn, In fn fns /\ isDefinitivePass (fn c) = true) <->
                 isDefinitivePass (IsPrReviewRequired c) = true
                 \/ isDefinitivePass (GithubCodeReview c) = true
                 \/ isDefinitivePass (ProwCodeReview c) = true
                 \/ isDefinitivePass (CommitMessageHints c) = true).
  { split.
    - intros [fn [[<- | [<- | [<- | [<- | []]]]] H]]; tauto.
    - intros [H | [H | [H | H]]]; eexists; (split; [|exact H]);
        simpl; tauto. }
  unfold DoesCodeReview, MultiCheckOr. fold fns.
  destruct (foldResults_cases CheckCodeReview (observed fns c))
    as [(r & Hin & Hr & ->) | (Hnone & Hres)].
  - split; [|reflexivity]. split.
    + intros _. apply Hany, observed_pass. exists r. split; assumption.
    + intros _. exact Hr.
  - split.
    + split.
      * intros H. destruct Hres as [Hres | Hres].
        -- rewrite (Hnone _ Hres) in H. discriminate.
        -- rewrite Hres in H. discriminate.
      * intros H. apply Hany, observed_pass in H.
        destruct H as [r [Hin Hr]]. rewrite (Hnone r Hin) in Hr.
        discriminate.
    + destruct Hres as [Hres | ->]; [apply Hname; exact Hres | reflexivity].
Qed.
